(** * Share and ShareOption (classes.py): a shallow embedding

    The Python module defines two classes.  [Share] is a record of market
    attributes with one derived metric; [ShareOption] adds an expiry date,
    parsed with [datetime.strptime], and prices a European option with the
    Black-Scholes formula.

    Conventions of the embedding.
    - A Python exception is a value of [exn]; code that can raise returns a
      [result].  Statements are sequenced in the order Python evaluates
      them, so the first exception raised is the one returned.
    - [datetime.now()] reads the clock; the instant it returns is an
      explicit argument [now].
    - Python floats are reached through the interface [PyFloat].  The
      arithmetic of the program is its instance [Binary64.binary64]:
      IEEE-754 doubles, with the functions of the C library and of scipy
      as parameters of a [platform].  The instance [Exact] reads floats as
      real numbers, without rounding, overflow or NaN; it is an
      idealisation, and a statement about it is a statement about the
      program only where it holds for every instance.
    - A [str] that is parsed is a [text], a list of code points of any
      value; a [str] that is only stored, compared or concatenated is a
      [string].
    - [strftime] is the C library's; whether it pads a year below 1000 to
      four digits is the parameter [padded_year]. *)

From Stdlib Require Import ZArith List Bool String Ascii Lia.
From Stdlib Require Import Reals Lra Classical.
From Stdlib Require PrimFloat SpecFloat FloatOps FloatAxioms Uint63.
Import ListNotations.

Local Open Scope string_scope.
Local Open Scope Z_scope.

(** ** Exceptions and results *)

(** The texts carried by the exceptions the module can raise. *)
Inductive message : Set :=
| msg_invalid_option_type    (* Invalid option type. Use 'call' or 'put'. *)
| msg_math_domain_error      (* math domain error *)
| msg_math_range_error       (* math range error *)
| msg_float_division_by_zero (* float division by zero *)
| msg_zero_to_negative_power (* 0.0 cannot be raised to a negative power *)
| msg_result_out_of_range    (* (34, 'Numerical result out of range') *)
| msg_argument_out_of_domain (* (33, 'Numerical argument out of domain') *)
| msg_int_too_large          (* int too large to convert to float *)
| msg_complex_zero_power     (* 0.0 to a negative or complex power *)
| msg_complex_exponentiation (* complex exponentiation *)
| msg_invalid_literal        (* invalid literal for int() with base 10: ... *)
| msg_time_data_no_match     (* time data ... does not match format ... *)
| msg_unconverted_data       (* unconverted data remains: ... *)
| msg_year_out_of_range      (* year ... is out of range *)
| msg_month_out_of_range     (* month must be in 1..12 *)
| msg_day_out_of_range.      (* day is out of range for month *)

Inductive exn : Set :=
| ValueError (m : message)
| ZeroDivisionError (m : message)
| OverflowError (m : message).

Inductive result (A : Type) : Type :=
| Ok (a : A)
| Raise (e : exn).

Arguments Ok {A} a.
Arguments Raise {A} e.

Definition bind {A B : Type} (r : result A) (k : A -> result B) : result B :=
  match r with
  | Ok a => k a
  | Raise e => Raise e
  end.

Declare Scope py_scope.
Delimit Scope py_scope with py.
Notation "x <- e ;; k" := (bind e (fun x => k))
  (at level 61, e at next level, right associativity) : py_scope.

Definition returns {A : Type} (r : result A) : Prop := exists a, r = Ok a.

(** ** Strings

    A [str] is a sequence of Unicode code points.  The strs that the
    classes only store, compare with a literal or concatenate are values of
    [string], whose characters are the code points below U+0100.  The
    expiry date is read by a regular expression whose class [\d] matches
    the decimal digits of every script, so it is a [text]: a list of code
    points, of any value. *)

Definition text : Set := list Z.

Definition code (c : ascii) : Z := Z.of_nat (nat_of_ascii c).

Definition text_of_string (s : string) : text := map code (list_ascii_of_string s).

Coercion text_of_string : string >-> text.

(** ** The datetime module *)

Module datetime.

Record t : Set := mk {
  year : Z; month : Z; day : Z;
  hour : Z; minute : Z; second : Z; microsecond : Z
}.

Definition _is_leap (y : Z) : bool :=
  (y mod 4 =? 0) && (negb (y mod 100 =? 0) || (y mod 400 =? 0)).

(** year -> number of days before January 1st of year. *)
Definition _days_before_year (y : Z) : Z :=
  let y := y - 1 in
  y * 365 + y / 4 - y / 100 + y / 400.

Definition _DAYS_IN_MONTH : list Z :=
  [31; 28; 31; 30; 31; 30; 31; 31; 30; 31; 30; 31].

Definition _days_in_month (y m : Z) : Z :=
  if (m =? 2) && _is_leap y then 29
  else nth (Z.to_nat (m - 1)) _DAYS_IN_MONTH 0.

Definition _DAYS_BEFORE_MONTH : list Z :=
  [0; 31; 59; 90; 120; 151; 181; 212; 243; 273; 304; 334].

Definition _days_before_month (y m : Z) : Z :=
  nth (Z.to_nat (m - 1)) _DAYS_BEFORE_MONTH 0
  + (if (2 <? m) && _is_leap y then 1 else 0).

Definition _ymd2ord (y m d : Z) : Z :=
  _days_before_year y + _days_before_month y m + d.

Definition toordinal (self : t) : Z :=
  _ymd2ord (year self) (month self) (day self).

(** The checks of the [date] constructor. *)
Definition _check_date_fields (y m d : Z) : result unit :=
  if negb ((1 <=? y) && (y <=? 9999)) then Raise (ValueError msg_year_out_of_range)
  else if negb ((1 <=? m) && (m <=? 12)) then Raise (ValueError msg_month_out_of_range)
  else if negb ((1 <=? d) && (d <=? _days_in_month y m))
       then Raise (ValueError msg_day_out_of_range)
  else Ok tt.

(** [timedelta(days, seconds, microseconds)]: the constructor normalises
    its arguments ([//] and [%] round towards minus infinity, as [Z.div]
    and [Z.modulo] do for a positive divisor). *)
Record timedelta : Set := mk_timedelta {
  days : Z; seconds : Z; microseconds : Z
}.

Definition new_timedelta (d s us : Z) : timedelta :=
  let s := s + us / 1000000 in
  let us := us mod 1000000 in
  let d := d + s / 86400 in
  let s := s mod 86400 in
  mk_timedelta d s us.

(** [self - other] for two naive datetimes. *)
Definition sub (self other : t) : timedelta :=
  let days1 := toordinal self in
  let days2 := toordinal other in
  let secs1 := second self + minute self * 60 + hour self * 3600 in
  let secs2 := second other + minute other * 60 + hour other * 3600 in
  new_timedelta (days1 - days2) (secs1 - secs2)
                (microsecond self - microsecond other).

(** *** Parsing: [datetime.strptime(s, "%Y-%m-%d")]

    [_strptime] turns the format into the regular expression
    [(?P<Y>\d\d\d\d)-(?P<m>1[0-2]|0[1-9]|[1-9])-(?P<d>3[0-1]|[1-2]\d|0[1-9]|[1-9]| [1-9])],
    matches it at the start of the string and then requires that the match
    ends where the string ends.  A matcher below returns the ways its
    pattern matches a prefix, in the order the backtracking engine tries
    them, each with the matched text and the rest of the input. *)

Definition matcher : Type := text -> list (text * text).

Definition in_range (lo hi : ascii) (c : Z) : bool :=
  (code lo <=? c) && (c <=? code hi).

(** The characters of the category Nd of Unicode 14.0, the version of
    CPython 3.11: they come in runs of ten, the digits 0 to 9 of a script
    in order, and the list gives the zero of each run. *)
Definition decimal_zeros : list Z :=
  [48; 1632; 1776; 1984; 2406; 2534; 2662; 2790; 2918; 3046; 3174; 3302; 3430;
   3558; 3664; 3792; 3872; 4160; 4240; 6112; 6160; 6470; 6608; 6784; 6800; 6992;
   7088; 7232; 7248; 42528; 43216; 43264; 43472; 43504; 43600; 44016; 65296;
   66720; 68912; 69734; 69872; 69942; 70096; 70384; 70736; 70864; 71248; 71360;
   71472; 71904; 72016; 72784; 73040; 73120; 92768; 92864; 93008; 120782; 120792;
   120802; 120812; 120822; 123200; 123632; 125264; 130032].

(** [Py_UNICODE_TODECIMAL]: the value of a decimal digit. *)
Definition decimal_digit (c : Z) : option Z :=
  match find (fun z => (z <=? c) && (c <=? z + 9)) decimal_zeros with
  | Some z => Some (c - z)
  | None => None
  end.

(** The class [\d] of a pattern that is a [str]. *)
Definition is_digit (c : Z) : bool :=
  match decimal_digit c with Some _ => true | None => false end.

(** One character of a class. *)
Definition cls (p : Z -> bool) : matcher :=
  fun s =>
    match s with
    | c :: rest => if p c then [([c], rest)] else []
    | [] => []
    end.

Definition lit (c : ascii) : matcher := cls (Z.eqb (code c)).

(** Concatenation and alternation. *)
Definition cat (m1 m2 : matcher) : matcher :=
  fun s =>
    flat_map (fun '(t1, s1) => map (fun '(t2, s2) => ((t1 ++ t2)%list, s2)) (m2 s1)) (m1 s).

Definition alt (m1 m2 : matcher) : matcher :=
  fun s => (m1 s ++ m2 s)%list.

Definition re_Y : matcher :=
  cat (cls is_digit) (cat (cls is_digit) (cat (cls is_digit) (cls is_digit))).

Definition re_m : matcher :=
  alt (cat (lit "1") (cls (in_range "0" "2")))
 (alt (cat (lit "0") (cls (in_range "1" "9")))
      (cls (in_range "1" "9"))).

Definition re_d : matcher :=
  alt (cat (lit "3") (cls (in_range "0" "1")))
 (alt (cat (cls (in_range "1" "2")) (cls is_digit))
 (alt (cat (lit "0") (cls (in_range "1" "9")))
 (alt (cls (in_range "1" "9"))
      (cat (lit " ") (cls (in_range "1" "9")))))).

(** The matches of the whole pattern in the order the engine finds them:
    the texts of the groups Y, m and d, and the input left after the match. *)
Definition format_regex (s : text) : list (text * text * text * text) :=
  flat_map (fun '(tY, s1) =>
  flat_map (fun '(_, s2) =>
  flat_map (fun '(tm, s3) =>
  flat_map (fun '(_, s4) =>
  map (fun '(td, s5) => (tY, tm, td, s5)) (re_d s4))
    (lit "-" s3))
    (re_m s2))
    (lit "-" s1))
    (re_Y s).

(** [format_regex.match(data_string)]: the first match. *)
Definition format_regex_match (s : text)
  : option (text * text * text * text) :=
  hd_error (format_regex s).

(** [int(text)] on the text of a group.  Such a text is a run of decimal
    digits, after one blank in the last alternative of [%d]; [int] skips
    the blank and reads the digits, of whatever script, in base ten.  A
    text that is empty or holds another character is an invalid literal. *)
Fixpoint lstrip (s : text) : text :=
  match s with
  | c :: rest => if c =? code " " then lstrip rest else s
  | [] => s
  end.

Fixpoint int_digits (acc : Z) (s : text) : result Z :=
  match s with
  | [] => Ok acc
  | c :: rest =>
      match decimal_digit c with
      | Some v => int_digits (10 * acc + v) rest
      | None => Raise (ValueError msg_invalid_literal)
      end
  end.

Definition int (s : text) : result Z :=
  match lstrip s with
  | [] => Raise (ValueError msg_invalid_literal)
  | digits => int_digits 0 digits
  end.

Definition strptime_Ymd (data_string : text) : result t :=
  match format_regex_match data_string with
  | None => Raise (ValueError msg_time_data_no_match)
  | Some (tY, tm, td, rest) =>
      match rest with
      | _ :: _ => Raise (ValueError msg_unconverted_data)
      | [] =>
          (y <- int tY ;;
           m <- int tm ;;
           d <- int td ;;
           _ <- _check_date_fields y m d ;;
           Ok (mk y m d 0 0 0 0))%py
      end
  end.

(** *** Formatting: [self.strftime("%Y-%m-%d")]

    The month and the day are written with two digits.  The year is
    written by the C library: with four digits where it pads the year, and
    without leading zeros where it does not, as glibc under CPython 3.11;
    [padded_year] says which. *)

Definition digit_char (n : Z) : ascii := ascii_of_nat (Z.to_nat (48 + n mod 10)).

Fixpoint zero_padded (width : nat) (n : Z) : string :=
  match width with
  | O => ""
  | S w => zero_padded w (n / 10) ++ String (digit_char n) ""
  end.

(** The number of digits of a year, which is between 1 and 9999. *)
Definition year_width (y : Z) : nat :=
  if y <? 10 then 1 else if y <? 100 then 2 else if y <? 1000 then 3 else 4.

Definition strftime_Ymd (padded_year : bool) (self : t) : string :=
  (if padded_year then zero_padded 4 (year self)
   else zero_padded (year_width (year self)) (year self))
  ++ "-" ++ zero_padded 2 (month self)
  ++ "-" ++ zero_padded 2 (day self).

End datetime.

(** ** Python floats

    The operations of [float] and of the [math] module that the two classes
    use, as an interface.  An operation that can raise returns a [result].
    A value of [number] is what an arithmetic expression can evaluate to: a
    float or, from [**] with a negative base and a fractional exponent, a
    complex number. *)

Inductive number (F : Type) : Type :=
| Float (x : F)
| Complex (re im : F).

Arguments Float {F} x.
Arguments Complex {F} re im.

Class PyFloat : Type := {
  float : Type;
  (** [float(n)] for an [int] [n]: raises OverflowError when [n] is too
      large for a float. *)
  float_of_int : Z -> result float;
  (** The literal written with the digits of [m] and [e] digits after the
      decimal point: [decimal 3 2] is [0.03]. *)
  decimal : Z -> nat -> float;
  float_neg : float -> float;
  float_add : float -> float -> float;
  float_sub : float -> float -> float;
  float_mul : float -> float -> float;
  (** [a / b]: raises ZeroDivisionError when [b] is zero. *)
  float_div : float -> float -> result float;
  (** [x ** y] for floats. *)
  float_pow : float -> float -> result (number float);
  (** [x ** n] for an [int] [n]: the exponent is integral, so the result is
      a float. *)
  float_pow_int : float -> Z -> result float;
  math_log : float -> result float;
  math_sqrt : float -> result float;
  math_exp : float -> result float;
  (** [scipy.stats.norm.cdf]. *)
  norm_cdf : float -> float;
  (** [repr(x)], the text an f-string puts for a float. *)
  float_repr : float -> string
}.

Declare Scope pyfloat_scope.
Delimit Scope pyfloat_scope with pyfloat.
Notation "- x" := (float_neg x) : pyfloat_scope.
Infix "+" := float_add : pyfloat_scope.
Infix "-" := float_sub : pyfloat_scope.
Infix "*" := float_mul : pyfloat_scope.

(** [x * v] for a float [x] and the value [v] of an expression: a complex
    operand makes the float the complex number [x + 0j]. *)
Definition float_mul_number `{PyFloat} (x : float) (v : number float) : number float :=
  match v with
  | Float y => Float (x * y)%pyfloat
  | Complex re im =>
      Complex (x * re - decimal 0 1 * im)%pyfloat
              (x * im + decimal 0 1 * re)%pyfloat
  end.

(** *** Floats as real numbers *)

Section Exact.

Local Open Scope R_scope.

Variable Phi : R -> R.
Variable repr : R -> string.

Definition is_integral (y : R) : bool :=
  if Req_dec_T (IZR (Int_part y)) y then true else false.

Definition exact_div (a b : R) : result R :=
  if Req_dec_T b 0 then Raise (ZeroDivisionError msg_float_division_by_zero)
  else Ok (a / b).

(** [float_pow] of floatobject.c.  The C function [pow] is read as its
    mathematical value: [Rpower] on a positive base, and the integral power
    of a negative base. *)
Definition exact_pow (iv iw : R) : result (number R) :=
  if Req_dec_T iw 0 then Ok (Float 1)
  else if Req_dec_T iv 0 then
    if Rlt_dec iw 0 then Raise (ZeroDivisionError msg_zero_to_negative_power)
    else Ok (Float 0)
  else if Rlt_dec iv 0 then
    if is_integral iw then Ok (Float (powerRZ iv (Int_part iw)))
    else
      (* complex_pow: polar form of the base, whose argument is pi *)
      let len := Rpower (- iv) iw in
      let phase := PI * iw in
      Ok (Complex (len * cos phase) (len * sin phase))
  else Ok (Float (Rpower iv iw)).

Definition exact_pow_int (iv : R) (n : Z) : result R :=
  if Z.eqb n 0 then Ok 1
  else if Req_dec_T iv 0 then
    if Z.ltb n 0 then Raise (ZeroDivisionError msg_zero_to_negative_power)
    else Ok 0
  else Ok (powerRZ iv n).

Definition exact_log (x : R) : result R :=
  if Rlt_dec 0 x then Ok (ln x) else Raise (ValueError msg_math_domain_error).

Definition exact_sqrt (x : R) : result R :=
  if Rlt_dec x 0 then Raise (ValueError msg_math_domain_error) else Ok (sqrt x).

Definition Exact : PyFloat := {|
  float := R;
  float_of_int := fun n => Ok (IZR n);
  decimal := fun m e => IZR m / 10 ^ e;
  float_neg := Ropp;
  float_add := Rplus;
  float_sub := Rminus;
  float_mul := Rmult;
  float_div := exact_div;
  float_pow := exact_pow;
  float_pow_int := exact_pow_int;
  math_log := exact_log;
  math_sqrt := exact_sqrt;
  math_exp := fun x => Ok (exp x);
  norm_cdf := Phi;
  float_repr := repr
|}.

End Exact.

(** *** Floats as IEEE-754 doubles

    The arithmetic is that of the primitive binary64 floats.  The functions
    the interpreter takes from the C library are fields of [platform]:
    [log], [exp] and [pow] of libm, the latter with the [errno] it leaves,
    the power of complex numbers of complexobject.c, which is built from
    [hypot], [pow], [atan2], [cos] and [sin] of libm, and the distribution
    function of scipy. *)

Module Binary64.

(** The value of [errno] after a call: 0, ERANGE, or anything else. *)
Inductive errno : Set := ENONE | ERANGE | EDOM.

Record platform : Type := {
  c_log : PrimFloat.float -> PrimFloat.float;
  c_exp : PrimFloat.float -> PrimFloat.float;
  c_pow : PrimFloat.float -> PrimFloat.float -> PrimFloat.float * errno;
  (** [complex_pow] at the complex numbers [iv + 0j] and [iw + 0j]. *)
  complex_pow : PrimFloat.float -> PrimFloat.float
                -> result (PrimFloat.float * PrimFloat.float);
  ndtr : PrimFloat.float -> PrimFloat.float;
  repr : PrimFloat.float -> string
}.

(** [PyLong_AsDouble]: the nearest double, ties to even. *)
Definition of_int (n : Z) : result PrimFloat.float :=
  let x := FloatOps.SF2Prim
             (SpecFloat.binary_normalize FloatOps.prec FloatOps.emax n 0 false) in
  if PrimFloat.is_infinity x then Raise (OverflowError msg_int_too_large)
  else Ok x.

(** Both the digits and the power of ten of a literal used here are
    doubles, so the quotient is the double nearest to the literal. *)
Definition literal (m : Z) (e : nat) : PrimFloat.float :=
  PrimFloat.div
    (FloatOps.SF2Prim (SpecFloat.binary_normalize FloatOps.prec FloatOps.emax m 0 false))
    (FloatOps.SF2Prim
       (SpecFloat.binary_normalize FloatOps.prec FloatOps.emax (10 ^ Z.of_nat e) 0 false)).

Definition div (a b : PrimFloat.float) : result PrimFloat.float :=
  if PrimFloat.eqb b PrimFloat.zero
  then Raise (ZeroDivisionError msg_float_division_by_zero)
  else Ok (PrimFloat.div a b).

(** [math_1] of mathmodule.c: a NaN from an argument that is not one, or an
    infinity from a finite argument, is an error. *)
Definition math_1 (can_overflow : bool) (x r : PrimFloat.float) : result PrimFloat.float :=
  if PrimFloat.is_nan r && negb (PrimFloat.is_nan x)
  then Raise (ValueError msg_math_domain_error)
  else if PrimFloat.is_infinity r && PrimFloat.is_finite x
  then (if can_overflow then Raise (OverflowError msg_math_range_error)
        else Raise (ValueError msg_math_domain_error))
  else Ok r.

(** [m_log] of mathmodule.c. *)
Definition m_log (P : platform) (x : PrimFloat.float) : PrimFloat.float :=
  if PrimFloat.is_finite x then
    if PrimFloat.ltb PrimFloat.zero x then c_log P x
    else if PrimFloat.eqb x PrimFloat.zero then PrimFloat.neg_infinity
    else PrimFloat.nan
  else if PrimFloat.is_nan x then x
  else if PrimFloat.ltb PrimFloat.zero x then x
  else PrimFloat.nan.

(** The integer that a double is, when it is one. *)
Definition integer_value (x : PrimFloat.float) : option Z :=
  match FloatOps.Prim2SF x with
  | SpecFloat.S754_zero _ => Some 0
  | SpecFloat.S754_finite s m e =>
      if 0 <=? e then Some (SpecFloat.cond_Zopp s (Zpos m * 2 ^ e))
      else if Zpos m mod 2 ^ (- e) =? 0
           then Some (SpecFloat.cond_Zopp s (Zpos m / 2 ^ (- e)))
           else None
  | _ => None
  end.

(** [iw == floor(iw)] for a finite [iw]. *)
Definition is_integral (x : PrimFloat.float) : bool :=
  match integer_value x with Some _ => true | None => false end.

(** [DOUBLE_IS_ODD_INTEGER]: [fmod(fabs(x), 2.0) == 1.0]. *)
Definition is_odd_integer (x : PrimFloat.float) : bool :=
  match integer_value x with Some n => Z.odd n | None => false end.

(** [copysign(0.0, x)]. *)
Definition zero_with_sign_of (x : PrimFloat.float) : PrimFloat.float :=
  if PrimFloat.get_sign x then PrimFloat.neg_zero else PrimFloat.zero.

(** [_Py_ADJUST_ERANGE1]: an infinite result is a range error also when
    libm has not said so, and an underflow to zero is none. *)
Definition adjust_erange1 (ix : PrimFloat.float) (e : errno) : errno :=
  match e with
  | ENONE => if PrimFloat.is_infinity ix then ERANGE else ENONE
  | ERANGE => if PrimFloat.eqb ix PrimFloat.zero then ENONE else ERANGE
  | EDOM => EDOM
  end.

(** [pow] of libm as [float_pow] calls it: a value of [errno] other than
    0 after the call raises OverflowError when it is ERANGE and ValueError
    otherwise. *)
Definition libm_pow (P : platform) (iv iw : PrimFloat.float) : result PrimFloat.float :=
  let '(ix, e) := c_pow P iv iw in
  match adjust_erange1 ix e with
  | ENONE => Ok ix
  | ERANGE => Raise (OverflowError msg_result_out_of_range)
  | EDOM => Raise (ValueError msg_argument_out_of_domain)
  end.

(** [float_pow] of floatobject.c, but for its case of a negative base with
    an exponent that is not integral: there the result is [None], and the
    power is the one of complex numbers. *)
Definition pow_real (P : platform) (iv iw : PrimFloat.float)
  : option (result PrimFloat.float) :=
  (* v**0 is 1, even 0**0 *)
  if PrimFloat.eqb iw PrimFloat.zero then Some (Ok PrimFloat.one)
  (* nan**w = nan, unless w == 0 *)
  else if PrimFloat.is_nan iv then Some (Ok iv)
  (* v**nan = nan, unless v == 1; 1**nan = 1 *)
  else if PrimFloat.is_nan iw
  then Some (Ok (if PrimFloat.eqb iv PrimFloat.one then PrimFloat.one else iw))
  else if PrimFloat.is_infinity iw then
    let iv := PrimFloat.abs iv in
    if PrimFloat.eqb iv PrimFloat.one then Some (Ok PrimFloat.one)
    else if Bool.eqb (PrimFloat.ltb PrimFloat.zero iw) (PrimFloat.ltb PrimFloat.one iv)
    then Some (Ok (PrimFloat.abs iw))
    else Some (Ok PrimFloat.zero)
  else if PrimFloat.is_infinity iv then
    let iw_is_odd := is_odd_integer iw in
    if PrimFloat.ltb PrimFloat.zero iw
    then Some (Ok (if iw_is_odd then iv else PrimFloat.abs iv))
    else Some (Ok (if iw_is_odd then zero_with_sign_of iv else PrimFloat.zero))
  else if PrimFloat.eqb iv PrimFloat.zero then
    let iw_is_odd := is_odd_integer iw in
    if PrimFloat.ltb iw PrimFloat.zero
    then Some (Raise (ZeroDivisionError msg_zero_to_negative_power))
    else Some (Ok (if iw_is_odd then iv else PrimFloat.zero))
  else if PrimFloat.ltb iv PrimFloat.zero && negb (is_integral iw) then
    (* Negative numbers raised to fractional powers become complex. *)
    None
  else
    let negate_result := PrimFloat.ltb iv PrimFloat.zero && is_odd_integer iw in
    let iv := if PrimFloat.ltb iv PrimFloat.zero then PrimFloat.opp iv else iv in
    if PrimFloat.eqb iv PrimFloat.one
    then Some (Ok (if negate_result then PrimFloat.opp PrimFloat.one else PrimFloat.one))
    else
      (* Now iv and iw are finite, iw is nonzero, and iv is positive and
         not equal to 1.0. *)
      Some (ix <- libm_pow P iv iw ;;
            Ok (if negate_result then PrimFloat.opp ix else ix))%py.

(** [float_pow] of floatobject.c. *)
Definition pow (P : platform) (iv iw : PrimFloat.float)
  : result (number PrimFloat.float) :=
  match pow_real P iv iw with
  | Some r => (x <- r ;; Ok (Float x))%py
  | None => (p <- complex_pow P iv iw ;; Ok (Complex (fst p) (snd p)))%py
  end.

(** [x ** n] for an [int] [n], which [float_pow] receives as the float
    [float(n)].  That float is integral, so that the case of the complex
    power does not arise; were it to, the exception of the complex power is
    what this definition puts in its place. *)
Definition pow_int (P : platform) (x : PrimFloat.float) (n : Z)
  : result PrimFloat.float :=
  (w <- of_int n ;;
   match pow_real P x w with
   | Some r => r
   | None => Raise (OverflowError msg_complex_exponentiation)
   end)%py.

Definition binary64 (P : platform) : PyFloat := {|
  float := PrimFloat.float;
  float_of_int := of_int;
  decimal := literal;
  float_neg := PrimFloat.opp;
  float_add := PrimFloat.add;
  float_sub := PrimFloat.sub;
  float_mul := PrimFloat.mul;
  float_div := div;
  float_pow := pow P;
  float_pow_int := pow_int P;
  math_log := fun x => math_1 false x (m_log P x);
  math_sqrt := fun x => math_1 false x (PrimFloat.sqrt x);
  math_exp := fun x => math_1 true x (c_exp P x);
  norm_cdf := ndtr P;
  float_repr := repr P
|}.

(** Doubles used in the examples.  The share price and the strike are the
    doubles nearest to 1e-200 and 1e200: positive, finite, and with a
    quotient below the smallest positive double. *)
Module Doubles.
Import PrimFloat.
#[local] Set Warnings "-inexact-float".

Definition three_percent : float := 0x1.eb851eb851eb8p-6.
Definition tiny_price : float := 1e-200.
Definition huge_strike : float := 1e200.
Definition quarter : float := 0.25.
Definition market_cap : float := 1000000.
Definition dividend_yield : float := 0.01.

End Doubles.

End Binary64.

(** ** class Share *)

Module Share.
Section WithFloats.
Context {F : PyFloat}.

Record t : Type := __init__ {
  ticker : string;
  share_price : float;
  volatility : float;
  market_cap : float;
  dividend_yield : float;
  sector : string
}.

Definition __repr__ (self : t) : string :=
  "Share(ticker=" ++ ticker self ++ ", share_price=" ++ float_repr (share_price self)
  ++ ", volatility=" ++ float_repr (volatility self)
  ++ ", market_cap=" ++ float_repr (market_cap self)
  ++ ", dividend_yield=" ++ float_repr (dividend_yield self)
  ++ ", sector=" ++ sector self ++ ")".

(** [self.volatility * (trading_days ** 0.5)], [trading_days] an [int]. *)
Definition calculate_annualized_volatility (self : t) (trading_days : Z)
  : result (number float) :=
  (x <- float_of_int trading_days ;;
   p <- float_pow x (decimal 5 1) ;;
   Ok (float_mul_number (volatility self) p))%py.

Definition default_trading_days : Z := 252.

End WithFloats.
Arguments t : clear implicits.
End Share.

(** ** class ShareOption(Share) *)

Module ShareOption.
Section WithFloats.
Context {F : PyFloat}.

(** The attributes of [Share], set by [super().__init__], and the expiry. *)
Record t : Type := mk {
  super : Share.t F;
  expiry_date : datetime.t
}.

Definition __init__ (ticker : string) (share_price volatility market_cap dividend_yield : float)
    (sector : string) (expiry_date : text) : result t :=
  let super := Share.__init__ ticker share_price volatility market_cap dividend_yield sector in
  (d <- datetime.strptime_Ymd expiry_date ;;
   Ok (mk super d))%py.

Definition calculate_risk_free_rate (self : t) : float := decimal 3 2.

Definition call : string := "call".
Definition put : string := "put".

Definition calculate_option_value (now : datetime.t) (self : t)
    (strike_price : float) (option_type : string) : result float :=
  let share_price := Share.share_price (super self) in
  let volatility := Share.volatility (super self) in
  (* Time to expiry in years *)
  (days <- float_of_int (datetime.days (datetime.sub (expiry_date self) now)) ;;
   time_to_expiry <- float_div days (decimal 3650 1) ;;
   (* Risk-free rate *)
   let risk_free_rate := calculate_risk_free_rate self in
   (* Black-Scholes formula components *)
   q <- float_div share_price strike_price ;;
   lg <- math_log q ;;
   v2 <- float_pow_int volatility 2 ;;
   sq <- math_sqrt time_to_expiry ;;
   d1 <- float_div (lg + (risk_free_rate + decimal 5 1 * v2) * time_to_expiry)%pyfloat
                   (volatility * sq)%pyfloat ;;
   sq' <- math_sqrt time_to_expiry ;;
   let d2 := (d1 - volatility * sq')%pyfloat in
   if String.eqb option_type call then
     e <- math_exp (- risk_free_rate * time_to_expiry)%pyfloat ;;
     Ok (share_price * norm_cdf d1 - strike_price * e * norm_cdf d2)%pyfloat
   else if String.eqb option_type put then
     e <- math_exp (- risk_free_rate * time_to_expiry)%pyfloat ;;
     Ok (strike_price * e * norm_cdf (- d2) - share_price * norm_cdf (- d1))%pyfloat
   else
     Raise (ValueError msg_invalid_option_type))%py.

(** [padded_year]: whether [strftime] writes the year with four digits. *)
Definition __repr__ (padded_year : bool) (self : t) : string :=
  Share.__repr__ (super self)
  ++ ", expiry_date=" ++ datetime.strftime_Ymd padded_year (expiry_date self).

End WithFloats.
Arguments t : clear implicits.
End ShareOption.

(** ** The specification's vocabulary *)

Module Spec.
Local Open Scope R_scope.

(** The pricing formula as the specification writes it. *)
Definition d1 (S K r sigma T : R) : R :=
  (ln (S / K) + (r + 0.5 * sigma ^ 2) * T) / (sigma * sqrt T).

Definition d2 (S K r sigma T : R) : R :=
  d1 S K r sigma T - sigma * sqrt T.

Definition call_value (Phi : R -> R) (S K r sigma T : R) : R :=
  S * Phi (d1 S K r sigma T) - K * exp (- r * T) * Phi (d2 S K r sigma T).

Definition put_value (Phi : R -> R) (S K r sigma T : R) : R :=
  K * exp (- r * T) * Phi (- d2 S K r sigma T) - S * Phi (- d1 S K r sigma T).

(** What makes a function the standard normal cumulative distribution
    function: it has a density proportional to [exp (- x^2 / 2)], it is
    symmetric about 1/2, positive, and tends to 0 at minus infinity. *)
Record StandardNormal (Phi : R -> R) : Prop := {
  cdf_symmetric : forall x, Phi (- x) = 1 - Phi x;
  cdf_positive : forall x, 0 < Phi x;
  cdf_vanishes : forall eps, 0 < eps -> exists x, Phi x < eps;
  cdf_density :
    exists c, 0 < c /\ forall x, derivable_pt_lim Phi x (c * exp (- (x * x) / 2))
}.

Local Open Scope Z_scope.

(** A valid YYYY-MM-DD calendar date: four digits, a dash, two digits, a
    dash, two digits, naming a day that exists. *)
Definition leap_year (y : Z) : bool :=
  (y mod 4 =? 0) && (negb (y mod 100 =? 0) || (y mod 400 =? 0)).

Definition month_length (y m : Z) : Z :=
  if m =? 2 then (if leap_year y then 29 else 28)
  else if (m =? 4) || (m =? 6) || (m =? 9) || (m =? 11) then 30
  else 31.

Definition valid_ymd (y m d : Z) : bool :=
  (1 <=? y) && (y <=? 9999) && (1 <=? m) && (m <=? 12)
  && (1 <=? d) && (d <=? month_length y m).

Definition digit (c : ascii) : option Z :=
  let n := Z.of_nat (nat_of_ascii c) in
  if (48 <=? n) && (n <=? 57) then Some (n - 48) else None.

Definition two_digits (a b : ascii) : option Z :=
  match digit a, digit b with
  | Some x, Some y => Some (10 * x + y)
  | _, _ => None
  end.

(** The year, month and day a string of the shape dddd-dd-dd writes. *)
Definition iso_fields (s : string) : option (Z * Z * Z) :=
  match s with
  | String y1 (String y2 (String y3 (String y4 (String h1
      (String m1 (String m2 (String h2 (String d1 (String d2 EmptyString))))))))) =>
      if Ascii.eqb h1 "-" && Ascii.eqb h2 "-" then
        match two_digits y1 y2, two_digits y3 y4, two_digits m1 m2, two_digits d1 d2 with
        | Some yh, Some yl, Some m, Some d => Some (100 * yh + yl, m, d)
        | _, _, _, _ => None
        end
      else None
  | _ => None
  end.

Definition is_iso_date (s : string) : bool :=
  match iso_fields s with
  | Some (y, m, d) => valid_ymd y m d
  | None => false
  end.

(** The ways [strptime] lets a month and a day be written in the digits 0
    to 9: with two digits, without the leading zero and, for a day below
    ten, after a blank. *)
Definition unpadded (n : Z) : string :=
  if n <? 10 then datetime.zero_padded 1 n else datetime.zero_padded 2 n.

Definition month_spellings (m : Z) : list string :=
  [datetime.zero_padded 2 m; unpadded m].

Definition day_spellings (d : Z) : list string :=
  datetime.zero_padded 2 d :: unpadded d
  :: (if d <? 10 then [String " " (unpadded d)] else []).

(** The year is written with four decimal digits, each of any script. *)
Definition year_spelling (ty : text) (y : Z) : Prop :=
  exists a b c d va vb vc vd,
    ty = [a; b; c; d]
    /\ datetime.decimal_digit a = Some va /\ datetime.decimal_digit b = Some vb
    /\ datetime.decimal_digit c = Some vc /\ datetime.decimal_digit d = Some vd
    /\ y = 1000 * va + 100 * vb + 10 * vc + vd.

Definition month_spelling (tm : text) (m : Z) : Prop :=
  In tm (map text_of_string (month_spellings m)).

(** A day from 10 to 29 may have a last digit of any script. *)
Definition day_spelling (td : text) (d : Z) : Prop :=
  In td (map text_of_string (day_spellings d))
  \/ exists b v,
      datetime.decimal_digit b = Some v
      /\ ((td = [code "1"; b] /\ d = 10 + v) \/ (td = [code "2"; b] /\ d = 20 + v)).

Definition accepted_spelling (s : text) (y m d : Z) : Prop :=
  exists ty tm td,
    year_spelling ty y /\ month_spelling tm m /\ day_spelling td d
    /\ s = (ty ++ code "-" :: tm ++ code "-" :: td)%list.

End Spec.

(** ** The inputs of the formula, for floats read as real numbers *)

Section ExactViews.

Local Open Scope R_scope.

Variable Phi : R -> R.
Variable repr : R -> string.

#[local] Abbreviation E := (Exact Phi repr).

(** Time to expiry in years, seen from the instant [now]. *)
Definition time_to_expiry (now : datetime.t) (self : ShareOption.t E) : R :=
  IZR (datetime.days (datetime.sub (ShareOption.expiry_date self) now)) / 365.

Definition spot (self : ShareOption.t E) : R :=
  Share.share_price (ShareOption.super self).

Definition sigma (self : ShareOption.t E) : R :=
  Share.volatility (ShareOption.super self).

End ExactViews.

Arguments time_to_expiry {Phi repr} now self.
Arguments spot {Phi repr} self.
Arguments sigma {Phi repr} self.

(** ** The standard normal distribution function

    [scipy.stats.norm.cdf] computes the function constructed here: one half
    plus the area under the kernel [exp (- t^2 / 2)] from 0 to [x], scaled
    by the total mass of the kernel. *)

Module StdNormal.
Local Open Scope R_scope.

Definition gauss (t : R) : R := exp (- (t * t) / 2).

Lemma gauss_pos t : 0 < gauss t.
Proof. apply exp_pos. Qed.

Lemma gauss_even t : gauss (- t) = gauss t.
Proof. unfold gauss. f_equal. lra. Qed.

Lemma gauss_derivable : derivable gauss.
Proof. unfold gauss. reg. Qed.

Lemma gauss_continuous : continuity gauss.
Proof. apply derivable_continuous, gauss_derivable. Qed.

Lemma gauss_integrable (a b : R) : Riemann_integrable gauss a b.
Proof.
  destruct (Rle_dec a b) as [Hab | Hab].
  - apply continuity_implies_RiemannInt; [exact Hab | intros; apply gauss_continuous].
  - apply RiemannInt_P1, continuity_implies_RiemannInt; [lra | intros; apply gauss_continuous].
Qed.

(** The signed area under the kernel between 0 and [x]. *)
Definition gauss_area (x : R) : R := RiemannInt (gauss_integrable 0 x).

Lemma gauss_area_0 : gauss_area 0 = 0.
Proof. apply RiemannInt_P9. Qed.

(** A derivative is a local notion: a function that differs from [f] by a
    constant near [x] has the derivative of [f] at [x]. *)
Lemma derivable_pt_lim_local (f g : R -> R) (x l c d : R) :
  0 < d ->
  (forall y, Rabs (y - x) < d -> g y = c + f y) ->
  derivable_pt_lim f x l -> derivable_pt_lim g x l.
Proof.
  intros Hd Hloc Hf eps Heps.
  destruct (Hf eps Heps) as [delta Hdelta].
  assert (Hm : 0 < Rmin delta d) by (apply Rmin_pos; [apply cond_pos | exact Hd]).
  exists (mkposreal _ Hm). intros h Hh0 Hh. simpl in Hh.
  rewrite (Hloc (x + h)), (Hloc x).
  - replace (c + f (x + h) - (c + f x)) with (f (x + h) - f x) by ring.
    apply Hdelta; [exact Hh0 |].
    apply Rlt_le_trans with (1 := Hh), Rmin_l.
  - replace (x - x) with 0 by ring. rewrite Rabs_R0. exact Hd.
  - replace (x + h - x) with h by ring.
    apply Rlt_le_trans with (1 := Hh), Rmin_r.
Qed.

Lemma gauss_area_deriv (x : R) : derivable_pt_lim gauss_area x (gauss x).
Proof.
  assert (h : x - 1 <= x + 1) by lra.
  assert (C0 : forall y, x - 1 <= y <= x + 1 -> continuity_pt gauss y)
    by (intros; apply gauss_continuous).
  apply derivable_pt_lim_local
    with (f := primitive h (FTC_P1 h C0)) (c := gauss_area (x - 1)) (d := 1).
  - lra.
  - intros y Hy. apply Rabs_def2 in Hy.
    unfold primitive.
    destruct (Rle_dec (x - 1) y) as [H1 | H1]; [| lra].
    destruct (Rle_dec y (x + 1)) as [H2 | H2]; [| lra].
    unfold gauss_area. symmetry. apply RiemannInt_P26.
  - apply RiemannInt_P27. lra.
Qed.

Lemma gauss_area_increasing (a b : R) : a < b -> gauss_area a < gauss_area b.
Proof.
  intros Hab.
  destruct (MVT_cor2 gauss_area gauss a b Hab) as [c [Hc _]].
  - intros; apply gauss_area_deriv.
  - assert (0 < gauss c * (b - a)) by (apply Rmult_lt_0_compat; [apply gauss_pos | lra]).
    lra.
Qed.

Lemma null_derivative_const (f : R -> R) :
  (forall x, derivable_pt_lim f x 0) -> forall a b, f a = f b.
Proof.
  intros Hf.
  assert (Hlt : forall a b, a < b -> f a = f b).
  { intros a b Hab.
    destruct (MVT_cor2 f (fun _ => 0) a b Hab) as [c [Hc _]].
    - intros; apply Hf.
    - lra. }
  intros a b. destruct (Rtotal_order a b) as [H | [-> | H]].
  - apply Hlt, H.
  - reflexivity.
  - symmetry. apply Hlt, H.
Qed.

Lemma gauss_area_odd (x : R) : gauss_area (- x) = - gauss_area x.
Proof.
  set (f := fun y => gauss_area y + gauss_area (- y)).
  assert (Hf : forall y, derivable_pt_lim f y 0).
  { intros y. unfold f.
    replace 0 with (gauss y + gauss (- y) * -1) by (rewrite gauss_even; ring).
    apply derivable_pt_lim_plus; [apply gauss_area_deriv |].
    apply (derivable_pt_lim_comp (fun z => - z) gauss_area).
    - replace (-1) with (- 1) by ring.
      apply (derivable_pt_lim_opp id). apply derivable_pt_lim_id.
    - apply gauss_area_deriv. }
  pose proof (null_derivative_const f Hf x 0) as H.
  unfold f in H. rewrite Ropp_0, gauss_area_0 in H. lra.
Qed.

(** The kernel lies below [exp (1/2 - t)], whose integral is bounded. *)
Lemma gauss_area_bounded (x : R) : gauss_area x < exp (1 / 2).
Proof.
  assert (Hpos : forall y, 0 <= y -> gauss_area y <= exp (1 / 2) - exp (1 / 2 - y)).
  { intros y Hy.
    destruct Hy as [Hy | <-].
    2:{ rewrite gauss_area_0. replace (1 / 2 - 0) with (1 / 2) by lra. lra. }
    set (D := fun z => - exp (1 / 2 - z) - gauss_area z).
    destruct (MVT_cor2 D (fun z => exp (1 / 2 - z) - gauss z) 0 y Hy) as [c [Hc _]].
    - intros z _. unfold D.
      apply derivable_pt_lim_minus; [| apply gauss_area_deriv].
      replace (exp (1 / 2 - z)) with (- (exp (1 / 2 - z) * (0 - 1))) by ring.
      apply (derivable_pt_lim_opp (fun z => exp (1 / 2 - z))).
      apply (derivable_pt_lim_comp (fun z => 1 / 2 - z) exp).
      + apply (derivable_pt_lim_minus (fun _ => 1 / 2) id).
        * apply derivable_pt_lim_const.
        * apply derivable_pt_lim_id.
      + apply derivable_pt_lim_exp.
    - assert (Hge : gauss c <= exp (1 / 2 - c)).
      { unfold gauss.
        destruct (Req_dec (- (c * c) / 2) (1 / 2 - c)) as [-> | Hne]; [lra |].
        left. apply exp_increasing.
        pose proof (Rle_0_sqr (c - 1)) as Hsq. unfold Rsqr in Hsq.
        destruct (Rle_lt_dec (1 / 2 - c) (- (c * c) / 2)) as [Hle | Hlt]; [| exact Hlt].
        exfalso. apply Hne. lra. }
      unfold D in Hc. rewrite gauss_area_0 in Hc.
      replace (1 / 2 - 0) with (1 / 2) in Hc by lra.
      assert (0 <= (exp (1 / 2 - c) - gauss c) * (y - 0)) by (apply Rmult_le_pos; lra).
      lra. }
  destruct (Rle_dec 0 x) as [Hx | Hx].
  - pose proof (Hpos x Hx). pose proof (exp_pos (1 / 2 - x)). lra.
  - assert (gauss_area x < gauss_area 0) by (apply gauss_area_increasing; lra).
    rewrite gauss_area_0 in H. pose proof (exp_pos (1 / 2)). lra.
Qed.

Definition gauss_areas (y : R) : Prop := exists x, y = gauss_area x.

Lemma gauss_areas_bound : bound gauss_areas.
Proof.
  exists (exp (1 / 2)). intros y [x ->]. left. apply gauss_area_bounded.
Qed.

Lemma gauss_areas_inhabited : exists y, gauss_areas y.
Proof. exists (gauss_area 0), 0. reflexivity. Qed.

(** Half of the mass of the kernel, the area from 0 to infinity: the least
    upper bound of the areas. *)
Definition gauss_half_mass : R :=
  proj1_sig (completeness gauss_areas gauss_areas_bound gauss_areas_inhabited).

Definition cdf (x : R) : R := 1 / 2 + gauss_area x / (2 * gauss_half_mass).

Lemma gauss_half_mass_lub : is_lub gauss_areas gauss_half_mass.
Proof.
  unfold gauss_half_mass.
  destruct (completeness gauss_areas gauss_areas_bound gauss_areas_inhabited). assumption.
Qed.

Lemma gauss_area_lt_half_mass (x : R) : gauss_area x < gauss_half_mass.
Proof.
  apply Rlt_le_trans with (gauss_area (x + 1)).
  - apply gauss_area_increasing. lra.
  - apply (proj1 gauss_half_mass_lub). exists (x + 1). reflexivity.
Qed.

Lemma gauss_half_mass_pos : 0 < gauss_half_mass.
Proof. rewrite <- gauss_area_0. apply gauss_area_lt_half_mass. Qed.

Lemma gauss_area_near_half_mass (eps : R) :
  0 < eps -> exists x, gauss_half_mass - eps < gauss_area x.
Proof.
  intros Heps.
  destruct (classic (exists x, gauss_half_mass - eps < gauss_area x)) as [H | H];
    [exact H | exfalso].
  assert (Hub : is_upper_bound gauss_areas (gauss_half_mass - eps)).
  { intros y [x ->]. apply Rnot_lt_le. intros Hlt. apply H. exists x. exact Hlt. }
  pose proof (proj2 gauss_half_mass_lub _ Hub). lra.
Qed.

Lemma cdf_sym x : cdf (- x) = 1 - cdf x.
Proof.
  unfold cdf. rewrite gauss_area_odd.
  pose proof gauss_half_mass_pos. field. lra.
Qed.

Lemma cdf_pos x : 0 < cdf x.
Proof.
  unfold cdf.
  pose proof gauss_half_mass_pos as Hm.
  pose proof (gauss_area_lt_half_mass (- x)) as H. rewrite gauss_area_odd in H.
  assert (- 1 / 2 < gauss_area x / (2 * gauss_half_mass)).
  { apply Rmult_lt_reg_r with (2 * gauss_half_mass); [lra |].
    unfold Rdiv at 2. rewrite Rmult_assoc, Rinv_l by lra. lra. }
  lra.
Qed.

Lemma cdf_to_zero (eps : R) : 0 < eps -> exists x, cdf x < eps.
Proof.
  intros Heps. pose proof gauss_half_mass_pos as Hm.
  destruct (gauss_area_near_half_mass (2 * gauss_half_mass * eps)) as [x Hx].
  { apply Rmult_lt_0_compat; lra. }
  exists (- x). unfold cdf. rewrite gauss_area_odd.
  apply Rmult_lt_reg_r with (2 * gauss_half_mass); [lra |].
  rewrite Rmult_plus_distr_r. unfold Rdiv at 2.
  rewrite Rmult_assoc, Rinv_l by lra. lra.
Qed.

Lemma cdf_deriv x : derivable_pt_lim cdf x (/ (2 * gauss_half_mass) * gauss x).
Proof.
  unfold cdf.
  replace (/ (2 * gauss_half_mass) * gauss x)
    with (0 + gauss x * / (2 * gauss_half_mass)) by ring.
  apply (derivable_pt_lim_plus (fun _ => 1 / 2)
                               (fun x => gauss_area x / (2 * gauss_half_mass))).
  - apply derivable_pt_lim_const.
  - replace (gauss x * / (2 * gauss_half_mass))
      with (gauss x * / (2 * gauss_half_mass) + gauss_area x * 0) by ring.
    apply (derivable_pt_lim_mult gauss_area (fun _ => / (2 * gauss_half_mass))).
    + apply gauss_area_deriv.
    + apply derivable_pt_lim_const.
Qed.

Lemma cdf_standard_normal : Spec.StandardNormal cdf.
Proof.
  constructor.
  - apply cdf_sym.
  - apply cdf_pos.
  - apply cdf_to_zero.
  - exists (/ (2 * gauss_half_mass)). split.
    + apply Rinv_0_lt_compat. pose proof gauss_half_mass_pos. lra.
    + intros x. apply cdf_deriv.
Qed.

End StdNormal.

(** ** Objects used as examples *)

Module Example.
Local Open Scope R_scope.

(** The text of a real number is not modelled; the examples print none. *)
Definition no_repr (x : R) : string := "".

Abbreviation exact := (Exact StdNormal.cdf no_repr).

Definition share : Share.t exact :=
  Share.__init__ (F := exact) "ACME" 150 0.25 1000000 0.01 "Technology".

Definition expiry : datetime.t := datetime.mk 2025 7 2 0 0 0 0.

(** An option on [share] that expires on 2025-07-02. *)
Definition option : ShareOption.t exact := ShareOption.mk share expiry.

(** The same option on a share without volatility. *)
Definition flat_option : ShareOption.t exact :=
  ShareOption.mk (Share.__init__ (F := exact) "ACME" 150 0 1000000 0.01 "Technology")
                 expiry.

(** Midnight of 2025-01-01, 182 days before the expiry, and noon of the day
    before the expiry, less than one day before it. *)
Definition new_year : datetime.t := datetime.mk 2025 1 1 0 0 0 0.
Definition eve_noon : datetime.t := datetime.mk 2025 7 1 12 0 0 0.

End Example.

(** ** Further vocabulary: instants, variations of an option, the script *)

(** The instant is the start of its day. *)
Definition at_midnight (dt : datetime.t) : bool :=
  (datetime.hour dt =? 0) && (datetime.minute dt =? 0)
  && (datetime.second dt =? 0) && (datetime.microsecond dt =? 0).

(** The ranges the [datetime] constructor checks for the time of day. *)
Definition valid_clock (dt : datetime.t) : bool :=
  (0 <=? datetime.hour dt) && (datetime.hour dt <? 24)
  && (0 <=? datetime.minute dt) && (datetime.minute dt <? 60)
  && (0 <=? datetime.second dt) && (datetime.second dt <? 60)
  && (0 <=? datetime.microsecond dt) && (datetime.microsecond dt <? 1000000).

Definition same_date (a b : datetime.t) : bool :=
  (datetime.year a =? datetime.year b) && (datetime.month a =? datetime.month b)
  && (datetime.day a =? datetime.day b).

(** The date of [a] is earlier in the calendar than the date of [b]. *)
Definition date_before (a b : datetime.t) : Prop :=
  datetime.year a < datetime.year b
  \/ (datetime.year a = datetime.year b
      /\ (datetime.month a < datetime.month b
          \/ (datetime.month a = datetime.month b /\ datetime.day a < datetime.day b))).

Definition valid_date (a : datetime.t) : bool :=
  Spec.valid_ymd (datetime.year a) (datetime.month a) (datetime.day a).

(** Two more instants for the examples. *)
Definition eve_evening : datetime.t := datetime.mk 2025 7 1 18 30 0 0.
Definition first_of_june : datetime.t := datetime.mk 2025 6 1 0 0 0 0.


(** *** The script

    The part of the script that follows the lookup of the market data.  Its
    inputs are what the lookup and the prompts have returned: the ticker,
    the share price (0.0 when the lookup of the closing price has failed),
    the market capitalisation, the dividend yield, the sector, the expiry
    date as typed, the strike price as a float, and the kind as typed.  The
    result holds the two objects that the script prints and the value. *)

(** [str.lower] on the characters below U+0100: the letters A to Z, and the
    capital letters of Latin-1, which are U+00C0 to U+00DE without the
    multiplication sign U+00D7, move up by 32. *)
Definition lower_char (c : ascii) : ascii :=
  let n := nat_of_ascii c in
  if ((65 <=? n) && (n <=? 90) || (192 <=? n) && (n <=? 222) && negb (n =? 215))%nat
  then ascii_of_nat (n + 32)
  else c.

Fixpoint str_lower (s : string) : string :=
  match s with
  | EmptyString => EmptyString
  | String c rest => String (lower_char c) (str_lower rest)
  end.

Definition main {F : PyFloat} (now : datetime.t)
    (ticker_symbol : string) (share_price market_cap dividend_yield : float)
    (sector : string) (expiry_date : text) (strike_price : float) (typed_kind : string)
  : result (Share.t F * ShareOption.t F * float) :=
  (* Placeholder, replace with actual calculation if available *)
  let volatility := decimal 2 1 in
  let stock :=
    Share.__init__ ticker_symbol share_price volatility market_cap dividend_yield sector in
  (share_option <- ShareOption.__init__ ticker_symbol share_price volatility market_cap
                     dividend_yield sector expiry_date ;;
   let option_type := str_lower typed_kind in
   option_value <- ShareOption.calculate_option_value now share_option strike_price
                     option_type ;;
   Ok (stock, share_option, option_value))%py.

(** The price the script falls back to when the lookup of the closing price
    raises IndexError or KeyError. *)
Definition fallback_share_price {F : PyFloat} : float := decimal 0 1.

(** [typed] spells [kind] when capital letters A to Z count as their small
    letters. *)
Definition same_letter (c d : ascii) : bool :=
  Ascii.eqb c d
  || ((97 <=? nat_of_ascii d) && (nat_of_ascii d <=? 122)
      && (nat_of_ascii c =? nat_of_ascii d - 32))%nat.

Fixpoint spells (typed kind : string) : bool :=
  match typed, kind with
  | EmptyString, EmptyString => true
  | String c t, String d k => same_letter c d && spells t k
  | _, _ => false
  end.

(** *** Doubles for a strike of zero *)

Module ZeroStrike.
Import PrimFloat.
#[local] Set Warnings "-inexact-float".

Definition minus_zero : float := (-0)%float.
Definition half_year : float := 182%float.

End ZeroStrike.

(** ** A platform and an option for the examples on doubles *)

(** A platform for the examples.  At the arguments that the examples
    reach, its functions return what the C library of a reference run
    (CPython 3.11 with glibc) returns, and for the distribution function
    the value of [0.5 * erfc(- x / sqrt 2)] of that library; at every other
    argument they return NaN or fail. *)
Module Reference.
Import PrimFloat.
#[local] Set Warnings "-inexact-float".
Local Open Scope float_scope.

Definition share_price : float := 150.
Definition strike_price : float := 100.
Definition volatility : float := 0.25.
Definition two_percent : float := 0x1.47ae147ae147bp-6.

Definition c_log (x : float) : float :=
  if x =? 0x1.8p+0 then 0x1.9f323ecbf984cp-2 else nan.

Definition c_exp (x : float) : float :=
  if x =? -0x1.ea2c61f7a3c18p-7 then 0x1.f865e6097ee65p-1 else nan.

Definition c_pow (x y : float) : float * Binary64.errno :=
  if (x =? 0.25) && (y =? 2) then (0.0625, Binary64.ENONE)
  else if (x =? 252) && (y =? 0.5) then (0x1.fbfbf7ebc755fp+3, Binary64.ENONE)
  else (nan, Binary64.EDOM).

Definition complex_pow (x y : float) : result (float * float) :=
  if (x =? -4) && (y =? 0.5) then Ok (0x1.1a62633145c07p-53, 2)
  else Raise (ZeroDivisionError msg_complex_zero_power).

Definition ndtr (x : float) : float :=
  if x =? 0x1.3c22b4f35287bp+1 then 0x1.fc8a0cf5e16p-1
  else if x =? 0x1.258a0753d59p+1 then 0x1.fa6934a5a13e1p-1
  else if x =? -0x1.3c22b4f35287bp+1 then 0x1.baf9850f4ffe8p-8
  else if x =? -0x1.258a0753d59p+1 then 0x1.65b2d697b07aap-7
  else nan.

Definition libm : Binary64.platform := {|
  Binary64.c_log := c_log;
  Binary64.c_exp := c_exp;
  Binary64.c_pow := c_pow;
  Binary64.complex_pow := complex_pow;
  Binary64.ndtr := ndtr;
  Binary64.repr := fun _ => EmptyString
|}.

Definition share : Share.t (Binary64.binary64 libm) :=
  Share.__init__ (F := Binary64.binary64 libm) "ACME" share_price volatility
    Binary64.Doubles.market_cap Binary64.Doubles.dividend_yield "Technology".

Definition option : ShareOption.t (Binary64.binary64 libm) :=
  ShareOption.mk share Example.expiry.

Definition days : float := 182.
Definition time_to_expiry : float := 0x1.fe98e60c9fe99p-2.
Definition quotient : float := 1.5.
Definition logarithm : float := 0x1.9f323ecbf984cp-2.
Definition variance : float := 0.0625.
Definition root : float := 0x1.698ad9f7cf7aap-1.
Definition d1 : float := 0x1.3c22b4f35287bp+1.
Definition discount : float := 0x1.f865e6097ee65p-1.
Definition annualized : float := 0x1.451c23ca192ccp-2.
Definition target : float := 0.3175.
Definition tolerance : float := 0.001.
Definition smallest : float := 0x0.0000000000001p-1022.
Definition two : float := 2.
Definition days_252 : float := 252.
Definition minus_four : float := -4.
Definition root_252 : float := 0x1.fbfbf7ebc755fp+3.
Definition minus_four_real : float := 0x1.1a62633145c07p-55.
Definition minus_four_imag : float := 0.5.
Definition call_value : float := 0x1.9c5ec326c055p+5.
Definition put_value : float := 0x1.f7ea565a73bp-5.

End Reference.

(** ** The steps of a valuation *)

Section Components.

Context {F : PyFloat}.

Implicit Types (now : datetime.t) (self : ShareOption.t F).

Local Open Scope pyfloat_scope.

(** The whole days from [now] to the expiry, as the method reads them. *)
Definition days_to_expiry now self : Z :=
  datetime.days (datetime.sub (ShareOption.expiry_date self) now).

(** The part of the method that does not look at the kind: d1 and the
    square root that enters d2, or the exception of the first operation
    that fails. *)
Definition formula_components now self (strike_price : float)
  : result (float * float * float) :=
  let share_price := Share.share_price (ShareOption.super self) in
  let volatility := Share.volatility (ShareOption.super self) in
  (days <- float_of_int (days_to_expiry now self) ;;
   time_to_expiry <- float_div days (decimal 3650 1) ;;
   let risk_free_rate := ShareOption.calculate_risk_free_rate self in
   q <- float_div share_price strike_price ;;
   lg <- math_log q ;;
   v2 <- float_pow_int volatility 2 ;;
   sq <- math_sqrt time_to_expiry ;;
   d1 <- float_div (lg + (risk_free_rate + decimal 5 1 * v2) * time_to_expiry)
                   (volatility * sq) ;;
   sq' <- math_sqrt time_to_expiry ;;
   Ok (time_to_expiry, d1, d1 - volatility * sq'))%py.

End Components.

(** The zeros that a year without padding leaves out. *)
Definition leading_zeros (y : Z) : string :=
  if y <? 10 then "000" else if y <? 100 then "00" else if y <? 1000 then "0"
  else EmptyString.

(** ** The pricing engine over the real numbers *)

Section ExactPricing.

Local Open Scope R_scope.

Variable Phi : R -> R.
Variable repr : R -> string.

#[local] Abbreviation E := (Exact Phi repr).

Lemma exact_div_ok (a b : R) : b <> 0 -> exact_div a b = Ok (a / b).
Proof.
  intros Hb. unfold exact_div. destruct (Req_dec_T b 0); [contradiction | reflexivity].
Qed.

Lemma exact_div_zero (a b : R) :
  b = 0 -> exact_div a b = Raise (ZeroDivisionError msg_float_division_by_zero).
Proof.
  intros Hb. unfold exact_div. destruct (Req_dec_T b 0); [reflexivity | contradiction].
Qed.

Lemma exact_log_ok (x : R) : 0 < x -> exact_log x = Ok (ln x).
Proof.
  intros Hx. unfold exact_log. destruct (Rlt_dec 0 x); [reflexivity | contradiction].
Qed.

Lemma exact_sqrt_ok (x : R) : 0 <= x -> exact_sqrt x = Ok (sqrt x).
Proof.
  intros Hx. unfold exact_sqrt. destruct (Rlt_dec x 0); [lra | reflexivity].
Qed.

Lemma exact_pow_int_2 (x : R) : exact_pow_int x 2 = Ok (x ^ 2).
Proof.
  unfold exact_pow_int. simpl.
  destruct (Req_dec_T x 0) as [-> | _]; [f_equal; lra | reflexivity].
Qed.

Lemma time_to_expiry_eval (now : datetime.t) (self : ShareOption.t E) :
  exact_div (IZR (datetime.days (datetime.sub (ShareOption.expiry_date self) now)))
            (IZR 3650 / 10 ^ 1)
  = Ok (time_to_expiry now self).
Proof.
  rewrite exact_div_ok by (simpl; lra).
  unfold time_to_expiry. f_equal. simpl. field.
Qed.

Lemma risk_free_rate_exact (self : ShareOption.t E) :
  ShareOption.calculate_risk_free_rate self = 0.03.
Proof. unfold ShareOption.calculate_risk_free_rate. simpl. lra. Qed.

(** What the method evaluates to when the inputs of the formula are in its
    domain: the two formulas of the specification, or the error of the
    last branch. *)
Lemma calculate_option_value_eval now (self : ShareOption.t E) (K : R) (ty : string) :
  0 < spot self -> 0 < sigma self -> 0 < time_to_expiry now self -> 0 < K ->
  ShareOption.calculate_option_value now self K ty =
    if String.eqb ty ShareOption.call then
      Ok (Spec.call_value Phi (spot self) K 0.03 (sigma self) (time_to_expiry now self))
    else if String.eqb ty ShareOption.put then
      Ok (Spec.put_value Phi (spot self) K 0.03 (sigma self) (time_to_expiry now self))
    else Raise (ValueError msg_invalid_option_type).
Proof.
  intros HS Hsig HT HK.
  unfold ShareOption.calculate_option_value.
  cbn [float_of_int float_div float_pow_int math_log math_sqrt math_exp norm_cdf
       float_neg float_add float_sub float_mul decimal Exact bind
       ShareOption.calculate_risk_free_rate].
  rewrite time_to_expiry_eval. cbn [bind].
  fold (spot self) (sigma self).
  set (T := time_to_expiry now self) in *.
  assert (HsT : 0 < sqrt T) by (apply sqrt_lt_R0; exact HT).
  rewrite exact_div_ok by lra. cbn [bind].
  rewrite exact_log_ok by (apply Rdiv_lt_0_compat; assumption). cbn [bind].
  rewrite exact_pow_int_2. cbn [bind].
  rewrite exact_sqrt_ok by lra. cbn [bind].
  rewrite exact_div_ok by (apply Rgt_not_eq, Rmult_lt_0_compat; assumption).
  cbn [bind].
  assert (Hd1 : (ln (spot self / K)
                 + (IZR 3 / 10 ^ 2 + IZR 5 / 10 ^ 1 * sigma self ^ 2) * T)
                / (sigma self * sqrt T)
                = Spec.d1 (spot self) K 0.03 (sigma self) T).
  { unfold Spec.d1. f_equal. f_equal. f_equal. simpl. lra. }
  rewrite Hd1.
  assert (Hr : IZR 3 / 10 ^ 2 = 0.03) by (simpl; lra).
  rewrite Hr.
  destruct (String.eqb ty ShareOption.call); [reflexivity |].
  destruct (String.eqb ty ShareOption.put); reflexivity.
Qed.

(** The steps before the test of the kind do not look at the kind: when they
    raise, every kind raises the same exception. *)
Lemma formula_error_any_kind now (self : ShareOption.t E) (K : R) (ty ty' : string) (e : exn) :
  ShareOption.calculate_option_value now self K ty = Raise e ->
  ty = ShareOption.call \/ ty = ShareOption.put ->
  ShareOption.calculate_option_value now self K ty' = Raise e.
Proof.
  unfold ShareOption.calculate_option_value.
  repeat match goal with
         | |- bind ?r _ = Raise e -> _ =>
             destruct r as [? | e0]; cbn [bind]; [| intros H _; exact H]
         end.
  intros H [-> | ->]; cbn in H; discriminate H.
Qed.

End ExactPricing.

(** ** Facts about the examples *)

Lemma example_days_new_year :
  datetime.days (datetime.sub Example.expiry Example.new_year) = 182.
Proof. reflexivity. Qed.

Lemma example_days_eve_noon :
  datetime.days (datetime.sub Example.expiry Example.eve_noon) = 0.
Proof. reflexivity. Qed.

Lemma example_time_new_year (self : ShareOption.t Example.exact) :
  ShareOption.expiry_date self = Example.expiry ->
  time_to_expiry Example.new_year self = (182 / 365)%R.
Proof.
  intros He. unfold time_to_expiry. rewrite He, example_days_new_year. reflexivity.
Qed.

Lemma example_time_eve_noon (self : ShareOption.t Example.exact) :
  ShareOption.expiry_date self = Example.expiry ->
  time_to_expiry Example.eve_noon self = 0%R.
Proof.
  intros He. unfold time_to_expiry. rewrite He, example_days_eve_noon. lra.
Qed.

(** ** Theorems: the pricing engine *)

Section PricingTheorems.

Local Open Scope R_scope.

Variable Phi : R -> R.
Variable repr : R -> string.

#[local] Abbreviation E := (Exact Phi repr).

(** When the product of the volatility and the square root of the time is
    zero, the division that computes d1 raises, whatever the kind. *)
Lemma calculate_option_value_degenerate now (self : ShareOption.t E) (K : R) (ty : string) :
  0 < spot self -> 0 < K -> 0 <= time_to_expiry now self ->
  sigma self * sqrt (time_to_expiry now self) = 0 ->
  ShareOption.calculate_option_value now self K ty
  = Raise (ZeroDivisionError msg_float_division_by_zero).
Proof.
  intros HS HK HT Hz.
  unfold ShareOption.calculate_option_value.
  cbn [float_of_int float_div float_pow_int math_log math_sqrt math_exp norm_cdf
       float_neg float_add float_sub float_mul decimal Exact bind
       ShareOption.calculate_risk_free_rate].
  rewrite time_to_expiry_eval. cbn [bind].
  fold (spot self) (sigma self).
  rewrite exact_div_ok by lra. cbn [bind].
  rewrite exact_log_ok by (apply Rdiv_lt_0_compat; assumption). cbn [bind].
  rewrite exact_pow_int_2. cbn [bind].
  rewrite exact_sqrt_ok by lra. cbn [bind].
  rewrite exact_div_zero by exact Hz. reflexivity.
Qed.

(** The two known kinds are never answered with the exception of the
    unknown kind. *)
Lemma known_kind_not_rejected now (self : ShareOption.t E) (K : R) (ty : string) :
  ty = "call"%string \/ ty = "put"%string ->
  ShareOption.calculate_option_value now self K ty
  <> Raise (ValueError msg_invalid_option_type).
Proof.
  intros Hty. unfold ShareOption.calculate_option_value.
  cbn [float_of_int float_div float_pow_int math_log math_sqrt math_exp norm_cdf
       float_neg float_add float_sub float_mul decimal Exact bind
       ShareOption.calculate_risk_free_rate].
  unfold exact_div, exact_log, exact_sqrt, exact_pow_int.
  repeat match goal with
         | |- context [bind (if ?b then _ else _) _] => destruct b; cbn [bind]
         end;
    try discriminate;
    destruct Hty as [-> | ->]; cbn; discriminate.
Qed.


End PricingTheorems.

(** C8. [calculate_risk_free_rate] takes no input besides the option, cannot
    raise, and returns the literal 0.03 for every option: the real number
    3/100 when floats are read as real numbers, the double nearest to it
    when they are doubles. *)
Theorem calculate_risk_free_rate_fixed :
  (forall (F : PyFloat) (self : ShareOption.t F),
      ShareOption.calculate_risk_free_rate self = decimal 3 2)
  /\ (forall (Phi : R -> R) (repr : R -> string) (self : ShareOption.t (Exact Phi repr)),
         ShareOption.calculate_risk_free_rate self = 0.03%R)
  /\ (forall (P : Binary64.platform) (self : ShareOption.t (Binary64.binary64 P)),
         ShareOption.calculate_risk_free_rate self = Binary64.Doubles.three_percent).
Proof.
  split; [reflexivity |].
  split; [intros; apply risk_free_rate_exact | reflexivity].
Qed.

(** ** The theorems at the examples *)

Section PricingExamples.

Local Open Scope R_scope.

Lemma example_spot : spot Example.option = 150.
Proof. reflexivity. Qed.

Lemma example_sigma : sigma Example.option = 0.25.
Proof. reflexivity. Qed.

Lemma example_spot_pos : 0 < spot Example.option.
Proof. rewrite example_spot. lra. Qed.

Lemma example_sigma_pos : 0 < sigma Example.option.
Proof. rewrite example_sigma. lra. Qed.

Lemma example_time_pos : 0 < time_to_expiry Example.new_year Example.option.
Proof. rewrite (example_time_new_year Example.option eq_refl). lra. Qed.




End PricingExamples.


(** ** Dates: what [strptime] accepts and what [strftime] writes *)

Section Dates.
Import datetime.

(** *** Characters *)

Lemma in_range_enum (lo hi : ascii) (c : Z) :
  in_range lo hi c = true ->
  In c (map Z.of_nat
          (List.seq (nat_of_ascii lo) (S (nat_of_ascii hi - nat_of_ascii lo)))).
Proof.
  unfold in_range, code. intros H. apply andb_prop in H as [H1 H2].
  apply Z.leb_le in H1, H2.
  rewrite <- (Z2Nat.id c) by lia. apply in_map, in_seq. lia.
Qed.

(** Splits on the characters of the class that [H] says a character is in. *)
Ltac enum_char H :=
  apply in_range_enum in H; simpl in H;
  repeat (destruct H as [H | H]; [symmetry in H; subst |]); [.. | contradiction H].

(** Splits on the members of a list given by a chain of equations. *)
Ltac enum_small H :=
  repeat (destruct H as [H | H]; [subst |]); [.. | try subst].

Lemma mod_10_cases (k : Z) : In (k mod 10) [0; 1; 2; 3; 4; 5; 6; 7; 8; 9].
Proof.
  assert (H : 0 <= k mod 10 < 10) by (apply Z.mod_pos_bound; lia).
  cbn [In]. lia.
Qed.

Lemma digit_char_mod (k : Z) : digit_char k = digit_char (k mod 10).
Proof. unfold digit_char. rewrite Z.mod_mod by lia. reflexivity. Qed.

(** The value of a decimal digit is below ten, and a digit is not a blank. *)
Lemma decimal_digit_range (c v : Z) :
  decimal_digit c = Some v -> 0 <= v <= 9 /\ (c =? code " ") = false.
Proof.
  unfold decimal_digit.
  destruct (find (fun z => (z <=? c) && (c <=? z + 9)) decimal_zeros) as [z |] eqn:Hf;
    [| discriminate].
  intros [= <-]. pose proof (find_some _ _ Hf) as [Hin Hz].
  apply andb_prop in Hz as [H1 H2]. apply Z.leb_le in H1, H2.
  split; [lia |].
  apply Z.eqb_neq. intros ->. revert Hf. vm_compute. discriminate.
Qed.

Lemma is_digit_value (c : Z) :
  is_digit c = true -> exists v, decimal_digit c = Some v.
Proof.
  unfold is_digit. destruct (decimal_digit c) as [v |]; [eauto | discriminate].
Qed.

Lemma decimal_digit_is_digit (c v : Z) :
  decimal_digit c = Some v -> is_digit c = true.
Proof. unfold is_digit. intros ->. reflexivity. Qed.

(** The character that [strftime] writes for a digit is that digit. *)
Lemma decimal_digit_char (k : Z) :
  decimal_digit (code (digit_char k)) = Some (k mod 10).
Proof.
  rewrite digit_char_mod. pose proof (mod_10_cases k) as Hc. cbn [In] in Hc.
  repeat (destruct Hc as [Hc | Hc]; [rewrite <- Hc; reflexivity |]).
  contradiction Hc.
Qed.

(** *** Inversion of the matchers

    A match of a matcher built from the combinators splits the input into
    the matched text and the rest. *)

Lemma in_cls (p : Z -> bool) (s t r : text) :
  In (t, r) (cls p s) -> exists c, s = c :: r /\ t = [c] /\ p c = true.
Proof.
  unfold cls. destruct s as [| c s']; [intros [] |].
  destruct (p c) eqn:Hp; [| intros []].
  intros [H | []]. inversion H; subst. exists c. auto.
Qed.

Lemma in_lit (c : ascii) (s t r : text) :
  In (t, r) (lit c s) -> s = code c :: r /\ t = [code c].
Proof.
  intros H. apply in_cls in H as [c' [-> [-> Hc]]].
  apply Z.eqb_eq in Hc. subst. auto.
Qed.

Lemma in_cat (m1 m2 : matcher) (s t r : text) :
  In (t, r) (cat m1 m2 s) ->
  exists t1 s1 t2, In (t1, s1) (m1 s) /\ In (t2, r) (m2 s1) /\ t = (t1 ++ t2)%list.
Proof.
  unfold cat. intros H. apply in_flat_map in H as [[t1 s1] [H1 H2]].
  apply in_map_iff in H2 as [[t2 s2] [Heq H2]]. inversion Heq; subst.
  exists t1, s1, t2. auto.
Qed.

Lemma in_alt (m1 m2 : matcher) (s : text) (x : text * text) :
  In x (alt m1 m2 s) -> In x (m1 s) \/ In x (m2 s).
Proof. unfold alt. apply in_app_or. Qed.

(** One case per alternative. *)
Ltac invert_alt H :=
  repeat match type of H with
         | In _ (alt _ _ _) => apply in_alt in H as [H | H]
         end.

(** The last character of a pattern: [H] becomes the fact that the
    character [c] is in its class, or goes when the pattern is a literal. *)
Tactic Notation "invert_cls" hyp(H) ident(c) :=
  first [apply in_lit in H as [-> ->]
        | apply in_cls in H as (c & -> & -> & H)].

(** The first character [c] of a concatenation, [Hc] for its class and [H]
    for the rest of the pattern. *)
Tactic Notation "invert_cat" hyp(H) ident(c) ident(Hc) :=
  let t1 := fresh "t" in
  let s1 := fresh "s" in
  let t2 := fresh "t" in
  let Hr := fresh "Hr" in
  apply in_cat in H as (t1 & s1 & t2 & Hc & Hr & ->);
  rename Hr into H;
  first [apply in_lit in Hc as [-> ->]
        | apply in_cls in Hc as (c & -> & -> & Hc)].

(** [int] on four digits, and on two. *)
Lemma int_four_digits (a b c d va vb vc vd : Z) :
  decimal_digit a = Some va -> decimal_digit b = Some vb ->
  decimal_digit c = Some vc -> decimal_digit d = Some vd ->
  int [a; b; c; d] = Ok (1000 * va + 100 * vb + 10 * vc + vd).
Proof.
  intros Ha Hb Hc Hd. unfold int. cbn [lstrip].
  destruct (decimal_digit_range a va Ha) as [_ ->].
  cbn [int_digits]. rewrite Ha, Hb, Hc, Hd. f_equal. lia.
Qed.

Lemma int_two_digits (a b va vb : Z) :
  decimal_digit a = Some va -> decimal_digit b = Some vb ->
  int [a; b] = Ok (10 * va + vb).
Proof.
  intros Ha Hb. unfold int. cbn [lstrip].
  destruct (decimal_digit_range a va Ha) as [_ ->].
  cbn [int_digits]. rewrite Ha, Hb. f_equal.
Qed.

Lemma re_Y_sound (s tY r : text) :
  In (tY, r) (re_Y s) ->
  exists y, s = (tY ++ r)%list /\ Spec.year_spelling tY y /\ int tY = Ok y.
Proof.
  unfold re_Y. intros H.
  invert_cat H c1 H1. invert_cat H c2 H2. invert_cat H c3 H3. invert_cls H c4.
  destruct (is_digit_value _ H1) as [v1 E1]. destruct (is_digit_value _ H2) as [v2 E2].
  destruct (is_digit_value _ H3) as [v3 E3]. destruct (is_digit_value _ H) as [v4 E4].
  exists (1000 * v1 + 100 * v2 + 10 * v3 + v4).
  split; [reflexivity |]. split.
  - exists c1, c2, c3, c4, v1, v2, v3, v4. repeat split; assumption.
  - apply int_four_digits; assumption.
Qed.

(** Closes the case of one text [t] of a month or a day written in the
    digits 0 to 9: the input is [t] and the rest, [t] is a spelling of
    its number, the number is in range. *)
Ltac close_spelling :=
  eexists; split; [reflexivity |];
  split; [vm_compute; reflexivity |];
  split; [vm_compute; tauto | vm_compute; split; discriminate].

Lemma re_m_sound (s tm r : text) :
  In (tm, r) (re_m s) ->
  exists m, s = (tm ++ r)%list /\ int tm = Ok m
            /\ Spec.month_spelling tm m /\ 1 <= m <= 12.
Proof.
  unfold re_m. intros H. invert_alt H.
  - invert_cat H c1 H1. invert_cls H c2. enum_char H; close_spelling.
  - invert_cat H c1 H1. invert_cls H c2. enum_char H; close_spelling.
  - invert_cls H c1. enum_char H; close_spelling.
Qed.

Ltac close_day_spelling :=
  eexists; split; [reflexivity |];
  split; [vm_compute; reflexivity |];
  split; [left; vm_compute; tauto | vm_compute; split; discriminate].

Lemma re_d_sound (s td r : text) :
  In (td, r) (re_d s) ->
  exists d, s = (td ++ r)%list /\ int td = Ok d
            /\ Spec.day_spelling td d /\ 1 <= d <= 31.
Proof.
  unfold re_d. intros H. invert_alt H.
  - invert_cat H c1 H1. invert_cls H c2. enum_char H; close_day_spelling.
  - invert_cat H c1 H1. invert_cls H c2.
    destruct (is_digit_value _ H) as [v Hv].
    destruct (decimal_digit_range _ _ Hv) as [Hr _].
    enum_char H1.
    + exists (10 * 1 + v). split; [reflexivity |].
      split; [apply int_two_digits; [reflexivity | exact Hv] |].
      split; [| lia].
      right. exists c2, v. split; [exact Hv |]. left. split; [reflexivity | lia].
    + exists (10 * 2 + v). split; [reflexivity |].
      split; [apply int_two_digits; [reflexivity | exact Hv] |].
      split; [| lia].
      right. exists c2, v. split; [exact Hv |]. right. split; [reflexivity | lia].
  - invert_cat H c1 H1. invert_cls H c2. enum_char H; close_day_spelling.
  - invert_cls H c1. enum_char H; close_day_spelling.
  - invert_cat H c1 H1. invert_cls H c2. enum_char H; close_day_spelling.
Qed.

(** *** The checks of the date constructor *)

Lemma days_in_month_spec (y m : Z) :
  1 <= m <= 12 -> _days_in_month y m = Spec.month_length y m.
Proof.
  intros Hm.
  assert (Hc : m = 1 \/ m = 2 \/ m = 3 \/ m = 4 \/ m = 5 \/ m = 6 \/ m = 7 \/ m = 8
               \/ m = 9 \/ m = 10 \/ m = 11 \/ m = 12) by lia.
  unfold _days_in_month, Spec.month_length, _is_leap, Spec.leap_year.
  repeat (destruct Hc as [Hc | Hc]; [subst m; simpl; try reflexivity |]);
    subst m; reflexivity.
Qed.

Lemma check_date_fields_valid (y m d : Z) :
  Spec.valid_ymd y m d = true -> _check_date_fields y m d = Ok tt.
Proof.
  unfold Spec.valid_ymd, _check_date_fields. intros H.
  repeat (apply andb_prop in H as [H ?]).
  rewrite days_in_month_spec by lia.
  rewrite H, H0, H1, H2, H3, H4. reflexivity.
Qed.

Lemma check_date_fields_inv (y m d : Z) (u : unit) :
  _check_date_fields y m d = Ok u -> Spec.valid_ymd y m d = true.
Proof.
  unfold _check_date_fields. intros H.
  destruct ((1 <=? y) && (y <=? 9999)) eqn:Hy; [| discriminate].
  destruct ((1 <=? m) && (m <=? 12)) eqn:Hm; [| discriminate].
  cbn [negb] in H.
  destruct ((1 <=? d) && (d <=? _days_in_month y m)) eqn:Hd; [| discriminate].
  apply andb_prop in Hy as [Hy1 Hy2]. apply andb_prop in Hm as [Hm1 Hm2].
  apply andb_prop in Hd as [Hd1 Hd2].
  rewrite days_in_month_spec in Hd2 by lia.
  unfold Spec.valid_ymd.
  rewrite Hy1, Hy2, Hm1, Hm2, Hd1, Hd2. reflexivity.
Qed.

Lemma check_date_fields_raises (y m d : Z) (e : exn) :
  _check_date_fields y m d = Raise e -> exists msg, e = ValueError msg.
Proof.
  unfold _check_date_fields.
  repeat match goal with
         | |- context [if ?b then _ else _] => destruct b
         end; intros H; inversion H; eexists; reflexivity.
Qed.

(** *** What [strptime] accepts *)

Lemma format_regex_sound (s tY tm td r : text) :
  In (tY, tm, td, r) (format_regex s) ->
  exists y m d,
    s = (tY ++ code "-" :: tm ++ code "-" :: td ++ r)%list
    /\ Spec.year_spelling tY y /\ int tY = Ok y
    /\ Spec.month_spelling tm m /\ int tm = Ok m
    /\ Spec.day_spelling td d /\ int td = Ok d.
Proof.
  unfold format_regex. intros H.
  apply in_flat_map in H as [[tY' s1] [HY H]].
  apply in_flat_map in H as [[t1 s2] [H1 H]].
  apply in_flat_map in H as [[tm' s3] [Hm H]].
  apply in_flat_map in H as [[t2 s4] [H2 H]].
  apply in_map_iff in H as [[td' s5] [Heq Hd]].
  inversion Heq; subst; clear Heq.
  apply re_Y_sound in HY as (y & -> & HY & HYi).
  apply in_lit in H1 as [-> ->]. apply in_lit in H2 as [-> ->].
  apply re_m_sound in Hm as (m & -> & Hmi & Hm & _).
  apply re_d_sound in Hd as (d & -> & Hdi & Hd & _).
  exists y, m, d. repeat split; assumption.
Qed.

Theorem strptime_sound (s : text) (dt : datetime.t) :
  strptime_Ymd s = Ok dt ->
  exists y m d,
    Spec.valid_ymd y m d = true /\ Spec.accepted_spelling s y m d
    /\ dt = datetime.mk y m d 0 0 0 0.
Proof.
  unfold strptime_Ymd, format_regex_match.
  destruct (format_regex s) as [| [[[tY tm] td] r] l] eqn:Hre; cbn [hd_error];
    [discriminate |].
  destruct r; [| discriminate].
  assert (Hin : In (tY, tm, td, []) (format_regex s)) by (rewrite Hre; left; reflexivity).
  apply format_regex_sound in Hin as (y & m & d & Hs & HY & HYi & Hm & Hmi & Hd & Hdi).
  rewrite HYi, Hmi, Hdi. cbn [bind].
  destruct (_check_date_fields y m d) as [u | e] eqn:Hc; cbn [bind]; [| discriminate].
  intros H. inversion H; subst dt; clear H.
  exists y, m, d.
  split; [apply (check_date_fields_inv _ _ _ u Hc) |].
  split; [| reflexivity].
  exists tY, tm, td. rewrite app_nil_r in Hs. auto.
Qed.

Lemma re_Y_digits (a b c d : Z) (rest : text) :
  is_digit a = true -> is_digit b = true -> is_digit c = true -> is_digit d = true ->
  re_Y (a :: b :: c :: d :: rest) = [([a; b; c; d], rest)].
Proof.
  intros Ha Hb Hc Hd. unfold re_Y, cat, cls.
  cbn [flat_map]. rewrite Ha. cbn [flat_map map app].
  rewrite Hb. cbn [flat_map map app]. rewrite Hc. cbn [flat_map map app].
  rewrite Hd. reflexivity.
Qed.

(** The month, then the dash: the alternatives the engine tries after the
    one that spells the month are stopped by the dash. *)
Lemma re_m_complete (A : Type) (k : text -> text -> list A)
    (m : Z) (tm rest : text) :
  1 <= m <= 12 -> Spec.month_spelling tm m ->
  flat_map (fun '(tm, s3) => flat_map (fun '(_, s4) => k tm s4) (lit "-" s3))
           (re_m (tm ++ code "-" :: rest)%list)
  = k tm rest
  /\ int tm = Ok m.
Proof.
  intros Hm Hms.
  assert (Hc : m = 1 \/ m = 2 \/ m = 3 \/ m = 4 \/ m = 5 \/ m = 6 \/ m = 7 \/ m = 8
               \/ m = 9 \/ m = 10 \/ m = 11 \/ m = 12) by lia.
  enum_small Hc; vm_compute in Hms; enum_small Hms; try contradiction;
    (split; [| reflexivity]);
    unfold re_m, alt, cat, lit, cls, in_range; simpl; rewrite ?app_nil_r; reflexivity.
Qed.

(** Replaces the code of each character by its number. *)
Ltac eval_codes :=
  repeat match goal with
         | |- context [code ?c] =>
             let v := eval vm_compute in (code c) in change (code c) with v
         end.

Lemma re_d_complete (d : Z) (td : text) :
  1 <= d <= 31 -> Spec.day_spelling td d ->
  hd_error (re_d td) = Some (td, []) /\ int td = Ok d.
Proof.
  intros Hd [Hds | (b & v & Hv & Hds)].
  - assert (Hc : d = 1 \/ d = 2 \/ d = 3 \/ d = 4 \/ d = 5 \/ d = 6 \/ d = 7 \/ d = 8
               \/ d = 9 \/ d = 10 \/ d = 11 \/ d = 12 \/ d = 13 \/ d = 14 \/ d = 15
               \/ d = 16 \/ d = 17 \/ d = 18 \/ d = 19 \/ d = 20 \/ d = 21 \/ d = 22
               \/ d = 23 \/ d = 24 \/ d = 25 \/ d = 26 \/ d = 27 \/ d = 28 \/ d = 29
               \/ d = 30 \/ d = 31) by lia.
    enum_small Hc; vm_compute in Hds; enum_small Hds; try contradiction;
      (split; reflexivity).
  - pose proof (decimal_digit_is_digit _ _ Hv) as Hb.
    destruct Hds as [[-> ->] | [-> ->]].
    + split; [| apply (int_two_digits _ _ 1 v); [reflexivity | exact Hv]].
      unfold re_d, alt, cat, lit, cls, in_range. eval_codes. cbn -[is_digit].
      rewrite Hb. reflexivity.
    + split; [| apply (int_two_digits _ _ 2 v); [reflexivity | exact Hv]].
      unfold re_d, alt, cat, lit, cls, in_range. eval_codes. cbn -[is_digit].
      rewrite Hb. reflexivity.
Qed.

Lemma valid_ymd_bounds (y m d : Z) :
  Spec.valid_ymd y m d = true -> 1 <= y <= 9999 /\ 1 <= m <= 12 /\ 1 <= d <= 31.
Proof.
  unfold Spec.valid_ymd, Spec.month_length. intros H.
  repeat (apply andb_prop in H as [H ?]).
  destruct (m =? 2); [destruct (Spec.leap_year y) |
    destruct ((m =? 4) || (m =? 6) || (m =? 9) || (m =? 11))]; lia.
Qed.

Lemma lit_match (c : ascii) (s : text) : lit c (code c :: s) = [([code c], s)].
Proof. unfold lit, cls. rewrite Z.eqb_refl. reflexivity. Qed.

(** The first match of the pattern on a spelling of a date. *)
Lemma format_regex_complete (tY tm td : text) (m d : Z) :
  (forall rest, re_Y (tY ++ rest)%list = [(tY, rest)]) ->
  1 <= m <= 12 -> Spec.month_spelling tm m ->
  1 <= d <= 31 -> Spec.day_spelling td d ->
  format_regex_match (tY ++ code "-" :: tm ++ code "-" :: td)%list
  = Some (tY, tm, td, [])
  /\ int tm = Ok m /\ int td = Ok d.
Proof.
  intros HY Hm Hms Hd Hds.
  unfold format_regex_match, format_regex.
  rewrite HY. cbn [flat_map]. rewrite lit_match. cbn [flat_map]. rewrite !app_nil_r.
  destruct (re_m_complete _
              (fun tm s4 => map (fun '(td, s5) => (tY, tm, td, s5)) (re_d s4))
              m tm td Hm Hms) as [-> Him].
  destruct (re_d_complete d td Hd Hds) as [Hhd Hid].
  destruct (re_d td) as [| [td' r] l]; [discriminate |].
  cbn [hd_error] in Hhd. inversion Hhd; subst td' r; clear Hhd.
  cbn [map hd_error]. auto.
Qed.

Theorem strptime_complete (s : text) (y m d : Z) :
  Spec.valid_ymd y m d = true -> Spec.accepted_spelling s y m d ->
  strptime_Ymd s = Ok (datetime.mk y m d 0 0 0 0).
Proof.
  intros Hv (ty & tm & td & HY & Hms & Hds & ->).
  destruct (valid_ymd_bounds y m d Hv) as (Hy & Hm & Hd).
  destruct HY as (a & b & c & e & va & vb & vc & ve & -> & Ha & Hb & Hc & He & Hyv).
  destruct (format_regex_complete [a; b; c; e] tm td m d) as (Hre & Him & Hid);
    try assumption.
  { intros rest. apply re_Y_digits; eapply decimal_digit_is_digit; eassumption. }
  unfold strptime_Ymd. rewrite Hre.
  rewrite (int_four_digits _ _ _ _ _ _ _ _ Ha Hb Hc He), Him, Hid. cbn [bind].
  rewrite <- Hyv.
  rewrite (check_date_fields_valid y m d Hv). reflexivity.
Qed.

(** *** Strings of the shape dddd-dd-dd *)

Lemma text_of_string_app (s1 s2 : string) :
  text_of_string (s1 ++ s2) = (text_of_string s1 ++ text_of_string s2)%list.
Proof.
  unfold text_of_string. induction s1 as [| c s1 IH]; [reflexivity |].
  cbn [append list_ascii_of_string map app]. f_equal. exact IH.
Qed.

Lemma code_inj (a b : ascii) : code a = code b -> a = b.
Proof.
  unfold code. intros H. apply Nat2Z.inj in H.
  rewrite <- (ascii_nat_embedding a), <- (ascii_nat_embedding b), H. reflexivity.
Qed.

Lemma text_of_string_inj (s1 s2 : string) :
  text_of_string s1 = text_of_string s2 -> s1 = s2.
Proof.
  unfold text_of_string. revert s2.
  induction s1 as [| c s1 IH]; intros [| c2 s2]; cbn [list_ascii_of_string map];
    try discriminate; [reflexivity |].
  intros [= Hc Hs]. apply code_inj in Hc. subst c2. f_equal. exact (IH _ Hs).
Qed.

Lemma text_of_string_length (s : string) :
  List.length (text_of_string s) = String.length s.
Proof.
  unfold text_of_string. induction s as [| c s IH]; [reflexivity |].
  cbn [list_ascii_of_string map List.length String.length]. rewrite IH. reflexivity.
Qed.

Lemma spec_digit_inv (c : ascii) (v : Z) :
  Spec.digit c = Some v -> c = digit_char v /\ 0 <= v <= 9.
Proof.
  unfold Spec.digit.
  destruct ((48 <=? Z.of_nat (nat_of_ascii c)) && (Z.of_nat (nat_of_ascii c) <=? 57)) eqn:H;
    [| discriminate].
  intros Hv. inversion Hv; subst; clear Hv.
  apply andb_prop in H as [H1 H2]. apply Z.leb_le in H1, H2.
  split; [| lia].
  unfold digit_char. rewrite Z.mod_small by lia.
  replace (48 + (Z.of_nat (nat_of_ascii c) - 48)) with (Z.of_nat (nat_of_ascii c)) by lia.
  rewrite Nat2Z.id, ascii_nat_embedding. reflexivity.
Qed.

Lemma two_digits_inv (a b : ascii) (x : Z) :
  Spec.two_digits a b = Some x ->
  0 <= x <= 99 /\ zero_padded 2 x = String a (String b "").
Proof.
  unfold Spec.two_digits.
  destruct (Spec.digit a) as [va |] eqn:Ha; [| discriminate].
  destruct (Spec.digit b) as [vb |] eqn:Hb; [| discriminate].
  intros Hx. assert (Hx' : x = 10 * va + vb) by congruence. clear Hx. subst x.
  apply spec_digit_inv in Ha as [-> Ba]. apply spec_digit_inv in Hb as [-> Bb].
  split; [lia |].
  cbn [zero_padded append].
  rewrite (digit_char_mod (_ / 10)), (digit_char_mod (10 * _ + _)).
  replace (((10 * va + vb) / 10) mod 10) with va by (Z.div_mod_to_equations; lia).
  replace ((10 * va + vb) mod 10) with vb by (Z.div_mod_to_equations; lia).
  reflexivity.
Qed.

Lemma zero_padded_4_split (yh yl : Z) :
  0 <= yh <= 99 -> 0 <= yl <= 99 ->
  zero_padded 4 (100 * yh + yl) = zero_padded 2 yh ++ zero_padded 2 yl.
Proof.
  intros Hh Hl. cbn [zero_padded append].
  rewrite (digit_char_mod (_ / 10 / 10 / 10)), (digit_char_mod (_ / 10 / 10)),
    (digit_char_mod ((100 * yh + yl) / 10)), (digit_char_mod (100 * yh + yl)).
  replace ((100 * yh + yl) / 10 / 10 / 10 mod 10) with (yh / 10 mod 10)
    by (Z.div_mod_to_equations; lia).
  replace ((100 * yh + yl) / 10 / 10 mod 10) with (yh mod 10)
    by (Z.div_mod_to_equations; lia).
  replace ((100 * yh + yl) / 10 mod 10) with (yl / 10 mod 10)
    by (Z.div_mod_to_equations; lia).
  replace ((100 * yh + yl) mod 10) with (yl mod 10)
    by (Z.div_mod_to_equations; lia).
  rewrite <- !digit_char_mod. reflexivity.
Qed.

Lemma iso_fields_spelling (s : string) (y m d : Z) :
  Spec.iso_fields s = Some (y, m, d) ->
  0 <= y <= 9999
  /\ s = zero_padded 4 y ++ "-" ++ zero_padded 2 m ++ "-" ++ zero_padded 2 d.
Proof.
  unfold Spec.iso_fields.
  destruct s as [| y1 [| y2 [| y3 [| y4 [| h1 [| m1 [| m2 [| h2 [| d1 [| d2 [| c s]]]]]]]]]]];
    try discriminate.
  destruct (Ascii.eqb h1 "-") eqn:H1; [| discriminate].
  destruct (Ascii.eqb h2 "-") eqn:H2; [| discriminate].
  cbn [andb].
  destruct (Spec.two_digits y1 y2) as [yh |] eqn:Hyh; [| discriminate].
  destruct (Spec.two_digits y3 y4) as [yl |] eqn:Hyl; [| discriminate].
  destruct (Spec.two_digits m1 m2) as [m' |] eqn:Hm; [| discriminate].
  destruct (Spec.two_digits d1 d2) as [d' |] eqn:Hd; [| discriminate].
  intros H.
  assert (Hy : y = 100 * yh + yl) by congruence.
  assert (Hm' : m = m') by congruence. assert (Hd' : d = d') by congruence.
  clear H. subst y m' d'.
  apply Ascii.eqb_eq in H1, H2. subst h1 h2.
  apply two_digits_inv in Hyh as [Bh Eh]. apply two_digits_inv in Hyl as [Bl El].
  apply two_digits_inv in Hm as [_ Em]. apply two_digits_inv in Hd as [_ Ed].
  split; [lia |].
  rewrite zero_padded_4_split by assumption.
  rewrite Eh, El, Em, Ed. reflexivity.
Qed.

(** The year that [strftime] pads to four digits is a spelling of the year. *)
Lemma year_spelling_zero_padded (y : Z) :
  0 <= y <= 9999 -> Spec.year_spelling (zero_padded 4 y) y.
Proof.
  intros Hy.
  exists (code (digit_char (y / 10 / 10 / 10))), (code (digit_char (y / 10 / 10))),
    (code (digit_char (y / 10))), (code (digit_char y)),
    (y / 10 / 10 / 10 mod 10), (y / 10 / 10 mod 10), (y / 10 mod 10), (y mod 10).
  split; [reflexivity |].
  repeat (split; [apply decimal_digit_char |]).
  Z.div_mod_to_equations. lia.
Qed.

(** The canonical spelling: four digits, two and two. *)
Lemma canonical_accepted (y m d : Z) :
  0 <= y <= 9999 ->
  Spec.accepted_spelling
    (zero_padded 4 y ++ "-" ++ zero_padded 2 m ++ "-" ++ zero_padded 2 d) y m d.
Proof.
  intros Hy.
  exists (text_of_string (zero_padded 4 y)), (text_of_string (zero_padded 2 m)),
    (text_of_string (zero_padded 2 d)).
  split; [apply year_spelling_zero_padded; exact Hy |].
  split; [left; reflexivity |]. split; [left; left; reflexivity |].
  rewrite !text_of_string_app. reflexivity.
Qed.

(** A valid YYYY-MM-DD date is one of the spellings [strptime] accepts. *)
Lemma iso_date_accepted (s : string) :
  Spec.is_iso_date s = true ->
  exists y m d,
    Spec.iso_fields s = Some (y, m, d) /\ Spec.valid_ymd y m d = true
    /\ Spec.accepted_spelling s y m d
    /\ s = zero_padded 4 y ++ "-" ++ zero_padded 2 m ++ "-" ++ zero_padded 2 d.
Proof.
  unfold Spec.is_iso_date.
  destruct (Spec.iso_fields s) as [[[y m] d] |] eqn:Hf; [| discriminate].
  intros Hv. exists y, m, d.
  destruct (iso_fields_spelling s y m d Hf) as [Hy Hs].
  repeat split; try assumption.
  rewrite Hs at 1. apply canonical_accepted. exact Hy.
Qed.

Lemma int_raises_ValueError (s : text) (e : exn) :
  int s = Raise e -> exists msg, e = ValueError msg.
Proof.
  unfold int.
  assert (Hd : forall (digits : list Z) acc,
             int_digits acc digits = Raise e -> exists msg, e = ValueError msg).
  { induction digits as [| c digits IH]; intros acc; cbn [int_digits]; [discriminate |].
    destruct (decimal_digit c); [apply IH |].
    intros H; inversion H; eexists; reflexivity. }
  destruct (lstrip s); [intros H; inversion H; eexists; reflexivity | apply Hd].
Qed.

Lemma strptime_raises_ValueError (s : text) (e : exn) :
  strptime_Ymd s = Raise e -> exists msg, e = ValueError msg.
Proof.
  unfold strptime_Ymd.
  destruct (format_regex_match s) as [[[[tY tm] td] r] |].
  - destruct r.
    + destruct (int tY) as [y |] eqn:HY; cbn [bind];
        [| intros [= <-]; exact (int_raises_ValueError _ _ HY)].
      destruct (int tm) as [m |] eqn:Hm; cbn [bind];
        [| intros [= <-]; exact (int_raises_ValueError _ _ Hm)].
      destruct (int td) as [d |] eqn:Hd; cbn [bind];
        [| intros [= <-]; exact (int_raises_ValueError _ _ Hd)].
      destruct (_check_date_fields y m d) as [u | e'] eqn:Hc; cbn [bind];
        [discriminate |].
      intros [= <-]. exact (check_date_fields_raises _ _ _ _ Hc).
    + intros H; inversion H; eexists; reflexivity.
  - intros H; inversion H; eexists; reflexivity.
Qed.

End Dates.

(** ** What [strftime] writes *)

Section Rendering.
Import datetime.

Lemma length_append (s t : string) :
  String.length (s ++ t) = (String.length s + String.length t)%nat.
Proof. induction s as [| c s IH]; cbn; [reflexivity | rewrite IH; reflexivity]. Qed.

Lemma append_inv_head (p s t : string) : p ++ s = p ++ t -> s = t.
Proof.
  induction p as [| c p IH]; cbn [append]; [trivial |].
  intros H. apply IH. congruence.
Qed.

Lemma zero_padded_length (w : nat) (n : Z) : String.length (zero_padded w n) = w.
Proof.
  revert n. induction w as [| w IH]; intros n; cbn [zero_padded]; [reflexivity |].
  rewrite length_append, IH. cbn. lia.
Qed.

Lemma strftime_length (padded_year : bool) (dt : datetime.t) :
  String.length (strftime_Ymd padded_year dt)
  = ((if padded_year then 4 else year_width (year dt)) + 6)%nat.
Proof.
  unfold strftime_Ymd.
  destruct padded_year; rewrite !length_append, !zero_padded_length; reflexivity.
Qed.

Lemma year_width_4 (y : Z) : 1000 <= y -> year_width y = 4%nat.
Proof.
  intros Hy. unfold year_width.
  destruct (Z.ltb_spec y 10); [lia |]. destruct (Z.ltb_spec y 100); [lia |].
  destruct (Z.ltb_spec y 1000); [lia | reflexivity].
Qed.

Lemma year_width_short (y : Z) : y < 1000 -> (year_width y < 4)%nat.
Proof.
  intros Hy. unfold year_width.
  destruct (Z.ltb_spec y 10); [lia |]. destruct (Z.ltb_spec y 100); [lia |].
  destruct (Z.ltb_spec y 1000); lia.
Qed.

Lemma digit_char_zero (k : Z) : k = 0 -> digit_char k = "0"%char.
Proof. intros ->. reflexivity. Qed.

Lemma zero_padded_4_width (y : Z) :
  0 <= y -> zero_padded 4 y = leading_zeros y ++ zero_padded (year_width y) y.
Proof.
  intros Hy. unfold leading_zeros, year_width.
  destruct (Z.ltb_spec y 10) as [H1 | H1].
  { cbn [zero_padded append].
    rewrite (digit_char_zero (y / 10 / 10 / 10)), (digit_char_zero (y / 10 / 10)),
      (digit_char_zero (y / 10)) by (Z.div_mod_to_equations; lia).
    reflexivity. }
  destruct (Z.ltb_spec y 100) as [H2 | H2].
  { cbn [zero_padded append].
    rewrite (digit_char_zero (y / 10 / 10 / 10)), (digit_char_zero (y / 10 / 10))
      by (Z.div_mod_to_equations; lia).
    reflexivity. }
  destruct (Z.ltb_spec y 1000) as [H3 | H3].
  { cbn [zero_padded append].
    rewrite (digit_char_zero (y / 10 / 10 / 10)) by (Z.div_mod_to_equations; lia).
    reflexivity. }
  reflexivity.
Qed.

Lemma append_assoc (s t u : string) : (s ++ t) ++ u = s ++ t ++ u.
Proof. induction s as [| c s IH]; cbn [append]; [reflexivity | rewrite IH; reflexivity]. Qed.

Lemma strftime_padding (dt : datetime.t) :
  0 <= year dt ->
  strftime_Ymd true dt = leading_zeros (year dt) ++ strftime_Ymd false dt.
Proof.
  intros Hy. unfold strftime_Ymd.
  rewrite (zero_padded_4_width _ Hy), append_assoc. reflexivity.
Qed.

Lemma leading_zeros_length (y : Z) :
  (String.length (leading_zeros y) + year_width y = 4)%nat.
Proof.
  unfold leading_zeros, year_width.
  destruct (y <? 10); [reflexivity |]. destruct (y <? 100); [reflexivity |].
  destruct (y <? 1000); reflexivity.
Qed.

Lemma leading_zeros_width (y1 y2 : Z) :
  year_width y1 = year_width y2 -> leading_zeros y1 = leading_zeros y2.
Proof.
  unfold leading_zeros, year_width.
  destruct (y1 <? 10), (y2 <? 10), (y1 <? 100), (y2 <? 100), (y1 <? 1000), (y2 <? 1000);
    intros H; try reflexivity; discriminate H.
Qed.

Lemma spec_digit_char (k : Z) : Spec.digit (digit_char k) = Some (k mod 10).
Proof.
  rewrite digit_char_mod. pose proof (mod_10_cases k) as Hc. cbn [In] in Hc.
  repeat (destruct Hc as [Hc | Hc]; [rewrite <- Hc; reflexivity |]).
  contradiction Hc.
Qed.

Lemma iso_fields_strftime (y m d : Z) :
  0 <= y <= 9999 -> 0 <= m <= 99 -> 0 <= d <= 99 ->
  Spec.iso_fields (strftime_Ymd true (mk y m d 0 0 0 0)) = Some (y, m, d).
Proof.
  intros Hy Hm Hd. unfold strftime_Ymd. cbn [year month day zero_padded append].
  unfold Spec.iso_fields, Spec.two_digits. rewrite !spec_digit_char.
  cbn [Ascii.eqb Bool.eqb andb].
  f_equal. f_equal; [f_equal |]; Z.div_mod_to_equations; lia.
Qed.

(** Whether or not the year is padded, the rendering tells the date. *)
Lemma strftime_injective (padded_year : bool) (y1 m1 d1 y2 m2 d2 : Z) :
  Spec.valid_ymd y1 m1 d1 = true -> Spec.valid_ymd y2 m2 d2 = true ->
  strftime_Ymd padded_year (mk y1 m1 d1 0 0 0 0)
  = strftime_Ymd padded_year (mk y2 m2 d2 0 0 0 0) ->
  (y1, m1, d1) = (y2, m2, d2).
Proof.
  intros V1 V2 Heq.
  destruct (valid_ymd_bounds _ _ _ V1) as (Hy1 & Hm1 & Hd1).
  destruct (valid_ymd_bounds _ _ _ V2) as (Hy2 & Hm2 & Hd2).
  assert (Hp : strftime_Ymd true (mk y1 m1 d1 0 0 0 0)
               = strftime_Ymd true (mk y2 m2 d2 0 0 0 0)).
  { destruct padded_year; [exact Heq |].
    rewrite !strftime_padding by (cbn [year]; lia). cbn [year].
    assert (Hw : year_width y1 = year_width y2).
    { apply (f_equal String.length) in Heq. rewrite !strftime_length in Heq.
      cbn [year] in Heq. lia. }
    rewrite (leading_zeros_width _ _ Hw), Heq. reflexivity. }
  apply (f_equal Spec.iso_fields) in Hp.
  rewrite !iso_fields_strftime in Hp by lia. congruence.
Qed.

(** A rendering with a short year is not a date that [strptime] reads. *)
Lemma strptime_short_year (y m d : Z) :
  0 <= y < 1000 ->
  strptime_Ymd (strftime_Ymd false (mk y m d 0 0 0 0))
  = Raise (ValueError msg_time_data_no_match).
Proof.
  intros Hy. unfold strftime_Ymd, year_width. cbn [year month day].
  assert (Hdash : is_digit (code "-") = false) by reflexivity.
  unfold strptime_Ymd, format_regex_match, format_regex.
  destruct (Z.ltb_spec y 10); [| destruct (Z.ltb_spec y 100); [| destruct (Z.ltb_spec y 1000);
    [| lia]]];
    cbn [zero_padded append text_of_string list_ascii_of_string map];
    unfold re_Y, cat, cls; cbn [flat_map map app];
    repeat match goal with
           | |- context [is_digit (code (digit_char ?k))] =>
               rewrite (decimal_digit_is_digit _ _ (decimal_digit_char k));
               cbn [flat_map map app]
           end;
    rewrite Hdash; reflexivity.
Qed.

End Rendering.

(** ** Theorems: construction and rendering of an option *)

Section OptionDates.

Context {F : PyFloat}.
Variables (ticker : string) (share_price volatility market_cap dividend_yield : float)
          (sector : string).

#[local] Abbreviation super_init :=
  (Share.__init__ ticker share_price volatility market_cap dividend_yield sector).

#[local] Abbreviation init :=
  (ShareOption.__init__ ticker share_price volatility market_cap dividend_yield sector).

Lemma init_eval (expiry : text) :
  init expiry
  = bind (datetime.strptime_Ymd expiry) (fun d => Ok (ShareOption.mk super_init d)).
Proof. reflexivity. Qed.

Lemma init_inv (expiry : text) (self : ShareOption.t F) :
  init expiry = Ok self ->
  exists y m d,
    Spec.valid_ymd y m d = true /\ Spec.accepted_spelling expiry y m d
    /\ self = ShareOption.mk super_init (datetime.mk y m d 0 0 0 0).
Proof.
  rewrite init_eval.
  destruct (datetime.strptime_Ymd expiry) as [dt | e] eqn:Hp; cbn [bind]; [| discriminate].
  intros [= <-].
  destruct (strptime_sound expiry dt Hp) as (y & m & d & Hv & Hacc & ->).
  exists y, m, d. auto.
Qed.

(** C6, as amended.  Construction succeeds on exactly the strings that
    spell a day that exists, in a year from 0001 to 9999, as four digits, a
    dash, the month, a dash and the day, where the month and the day may
    drop their leading zero, a day below ten may follow a blank, and the
    digits of the year and the last digit of a day from 10 to 29 may be
    decimal digits of any script; the option then stores that date at
    midnight.  Every valid YYYY-MM-DD date is such a string.  On every
    other string, "2025-13-01" among them, construction raises
    ValueError. *)
Theorem init_parses_expiry_date :
  (forall expiry : string,
      Spec.is_iso_date expiry = true ->
      exists y m d,
        Spec.iso_fields expiry = Some (y, m, d)
        /\ init expiry = Ok (ShareOption.mk super_init (datetime.mk y m d 0 0 0 0)))
  /\ (forall (expiry : text) (self : ShareOption.t F),
         init expiry = Ok self <->
         exists y m d,
           Spec.valid_ymd y m d = true /\ Spec.accepted_spelling expiry y m d
           /\ self = ShareOption.mk super_init (datetime.mk y m d 0 0 0 0))
  /\ (forall expiry : text,
         (forall y m d, Spec.valid_ymd y m d = true -> ~ Spec.accepted_spelling expiry y m d) ->
         exists msg, init expiry = Raise (ValueError msg))
  /\ init "2025-13-01" = Raise (ValueError msg_time_data_no_match).
Proof.
  split; [| split; [| split]].
  - intros expiry Hiso.
    destruct (iso_date_accepted expiry Hiso) as (y & m & d & Hf & Hv & Hacc & _).
    exists y, m, d. split; [exact Hf |].
    rewrite init_eval, (strptime_complete expiry y m d Hv Hacc). reflexivity.
  - intros expiry self. split; [apply init_inv |].
    intros (y & m & d & Hv & Hacc & ->).
    rewrite init_eval, (strptime_complete expiry y m d Hv Hacc). reflexivity.
  - intros expiry Hno. rewrite init_eval.
    destruct (datetime.strptime_Ymd expiry) as [dt | e] eqn:Hp; cbn [bind].
    + destruct (strptime_sound expiry dt Hp) as (y & m & d & Hv & Hacc & _).
      destruct (Hno y m d Hv Hacc).
    + destruct (strptime_raises_ValueError expiry e Hp) as [msg ->].
      exists msg. reflexivity.
  - reflexivity.
Qed.

(** C10, as amended.  Round trip: constructing an option from a
    zero-padded YYYY-MM-DD string that names a valid date and rendering
    the option gives back the same expiry string, after the rendering of
    the share, if and only if [strftime] pads the year to four digits or
    the year is 1000 or later. *)
Theorem repr_reproduces_expiry_string (padded_year : bool) (expiry : string) :
  Spec.is_iso_date expiry = true ->
  exists self y m d,
    init expiry = Ok self
    /\ Spec.iso_fields expiry = Some (y, m, d)
    /\ (datetime.strftime_Ymd padded_year (ShareOption.expiry_date self) = expiry
        <-> padded_year = true \/ 1000 <= y)
    /\ (ShareOption.__repr__ padded_year self
        = (Share.__repr__ super_init ++ ", expiry_date=" ++ expiry)%string
        <-> padded_year = true \/ 1000 <= y).
Proof.
  intros Hiso.
  destruct (iso_date_accepted expiry Hiso) as (y & m & d & Hf & Hv & Hacc & Hs).
  destruct (valid_ymd_bounds y m d Hv) as (Hy & _ & _).
  exists (ShareOption.mk super_init (datetime.mk y m d 0 0 0 0)), y, m, d.
  rewrite init_eval, (strptime_complete expiry y m d Hv Hacc).
  split; [reflexivity |]. split; [exact Hf |].
  cbn [ShareOption.expiry_date].
  assert (Hfmt : datetime.strftime_Ymd padded_year (datetime.mk y m d 0 0 0 0) = expiry
                 <-> padded_year = true \/ 1000 <= y).
  { split.
    - intros Heq. destruct padded_year; [left; reflexivity | right].
      apply (f_equal String.length) in Heq.
      rewrite strftime_length in Heq. cbn [datetime.year] in Heq.
      rewrite Hs in Heq.
      change (datetime.zero_padded 4 y ++ "-" ++ datetime.zero_padded 2 m ++ "-"
              ++ datetime.zero_padded 2 d)
        with (datetime.strftime_Ymd true (datetime.mk y m d 0 0 0 0)) in Heq.
      rewrite strftime_length in Heq.
      destruct (Z_lt_le_dec y 1000) as [Hlt | Hge]; [| exact Hge].
      pose proof (year_width_short y Hlt). lia.
    - intros Hp. rewrite Hs.
      unfold datetime.strftime_Ymd. cbn [datetime.year datetime.month datetime.day].
      destruct padded_year; [reflexivity |].
      destruct Hp as [Hp | Hp]; [discriminate |].
      rewrite (year_width_4 y Hp). reflexivity. }
  split; [exact Hfmt |].
  unfold ShareOption.__repr__. cbn [ShareOption.super ShareOption.expiry_date].
  rewrite <- Hfmt. split.
  - intros Heq. apply append_inv_head in Heq.
    apply (append_inv_head ", expiry_date=") in Heq. exact Heq.
  - intros ->. reflexivity.
Qed.

End OptionDates.

(** C6 as stated fails: "2025-1-5" is not a YYYY-MM-DD date, its month and
    day having one digit, and yet construction succeeds and stores the
    fifth of January 2025.  So does construction from the Arabic-Indic
    digits of 2025, "-11-2" and the Arabic-Indic five, which stores the
    25th of November 2025. *)
Lemma init_accepts_unpadded_date :
  Spec.is_iso_date "2025-1-5" = false
  /\ forall (F : PyFloat) (ticker : string)
       (share_price volatility market_cap dividend_yield : float) (sector : string),
       ShareOption.__init__ ticker share_price volatility market_cap dividend_yield sector
         "2025-1-5"
       = Ok (ShareOption.mk
               (Share.__init__ ticker share_price volatility market_cap dividend_yield sector)
               (datetime.mk 2025 1 5 0 0 0 0))
       /\ ShareOption.__init__ ticker share_price volatility market_cap dividend_yield sector
            [1634; 1632; 1634; 1637; 45; 49; 49; 45; 50; 1637]
          = Ok (ShareOption.mk
                  (Share.__init__ ticker share_price volatility market_cap dividend_yield sector)
                  (datetime.mk 2025 11 25 0 0 0 0)).
Proof.
  split; [reflexivity |].
  intros F ticker share_price volatility market_cap dividend_yield sector.
  rewrite !init_eval.
  change (datetime.strptime_Ymd "2025-1-5") with (Ok (datetime.mk 2025 1 5 0 0 0 0)).
  change (datetime.strptime_Ymd [1634; 1632; 1634; 1637; 45; 49; 49; 45; 50; 1637])
    with (Ok (datetime.mk 2025 11 25 0 0 0 0)).
  split; reflexivity.
Qed.

(** C10 as stated fails where [strftime] does not pad the year, as in
    glibc: the option built from "0005-01-01" is rendered with the expiry
    5-01-01. *)
Lemma repr_drops_leading_zeros_of_year :
  Spec.is_iso_date "0005-01-01" = true
  /\ forall (F : PyFloat) (ticker : string)
       (share_price volatility market_cap dividend_yield : float) (sector : string),
       exists self,
         ShareOption.__init__ ticker share_price volatility market_cap dividend_yield sector
           "0005-01-01" = Ok self
         /\ datetime.strftime_Ymd false (ShareOption.expiry_date self) = "5-01-01"
         /\ ShareOption.__repr__ false self
            = (Share.__repr__
                 (Share.__init__ ticker share_price volatility market_cap dividend_yield
                    sector)
               ++ ", expiry_date=5-01-01")%string.
Proof.
  split; [reflexivity |].
  intros F ticker share_price volatility market_cap dividend_yield sector.
  exists (ShareOption.mk
            (Share.__init__ ticker share_price volatility market_cap dividend_yield sector)
            (datetime.mk 5 1 1 0 0 0 0)).
  rewrite init_eval.
  change (datetime.strptime_Ymd "0005-01-01") with (Ok (datetime.mk 5 1 1 0 0 0 0)).
  repeat split.
Qed.

(** C10, as amended, at an example: the expiry "2025-07-02", with a
    [strftime] that does not pad the year. *)
Lemma repr_reproduces_expiry_string_example :
  exists (self : ShareOption.t Example.exact) (y m d : Z),
    ShareOption.__init__ (F := Example.exact)
       "ACME" 150%R 0.25%R 1000000%R 0.01%R "Technology"
      "2025-07-02" = Ok self
    /\ Spec.iso_fields "2025-07-02" = Some (y, m, d)
    /\ (datetime.strftime_Ymd false (ShareOption.expiry_date self) = "2025-07-02"
        <-> false = true \/ 1000 <= y)
    /\ (ShareOption.__repr__ false self
        = (Share.__repr__ Example.share ++ ", expiry_date=" ++ "2025-07-02")%string
        <-> false = true \/ 1000 <= y).
Proof.
  apply (repr_reproduces_expiry_string (F := Example.exact)
           "ACME" 150%R 0.25%R 1000000%R 0.01%R "Technology" false "2025-07-02").
  reflexivity.
Defined.

(** ** Further properties: whole days to the expiry *)

Lemma sub_days_from_midnight (expiry now : datetime.t) :
  at_midnight expiry = true -> valid_clock now = true ->
  datetime.days (datetime.sub expiry now)
  = datetime.toordinal expiry - datetime.toordinal now
    - (if at_midnight now then 0 else 1).
Proof.
  unfold at_midnight, valid_clock. intros He Hn.
  repeat (apply andb_prop in He as [He ?]).
  repeat (apply andb_prop in Hn as [Hn ?]).
  repeat match goal with
         | H : (_ =? _) = true |- _ => apply Z.eqb_eq in H
         | H : (_ <=? _) = true |- _ => apply Z.leb_le in H
         | H : (_ <? _) = true |- _ => apply Z.ltb_lt in H
         end.
  unfold datetime.sub, datetime.new_timedelta. cbn [datetime.days].
  repeat match goal with H : _ = 0 |- _ => rewrite H end.
  generalize (datetime.toordinal expiry) (datetime.toordinal now). intros o1 o2.
  destruct (datetime.hour now =? 0) eqn:Hh; [apply Z.eqb_eq in Hh | apply Z.eqb_neq in Hh];
  (destruct (datetime.minute now =? 0) eqn:Hm; [apply Z.eqb_eq in Hm | apply Z.eqb_neq in Hm]);
  (destruct (datetime.second now =? 0) eqn:Hs; [apply Z.eqb_eq in Hs | apply Z.eqb_neq in Hs]);
  (destruct (datetime.microsecond now =? 0) eqn:Hu;
   [apply Z.eqb_eq in Hu | apply Z.eqb_neq in Hu]);
  cbn [andb]; Z.div_mod_to_equations; lia.
Qed.

Lemma toordinal_same_date (a b : datetime.t) :
  same_date a b = true -> datetime.toordinal a = datetime.toordinal b.
Proof.
  unfold same_date. intros H.
  apply andb_prop in H as [H Hd]. apply andb_prop in H as [Hy Hm].
  apply Z.eqb_eq in Hy, Hm, Hd. unfold datetime.toordinal. congruence.
Qed.

Section DaysToExpiry.

Context {F : PyFloat}.
Variables (ticker : string) (share_price volatility market_cap dividend_yield : float)
          (sector : string).

(** An option that [__init__] has built expires at the start of a day. *)
Lemma init_expiry_at_midnight (expiry : text) (self : ShareOption.t F) :
  ShareOption.__init__ ticker share_price volatility market_cap dividend_yield sector expiry
  = Ok self ->
  at_midnight (ShareOption.expiry_date self) = true.
Proof.
  intros Hi. destruct (init_inv _ _ _ _ _ _ _ _ Hi) as (y & m & d & _ & _ & ->).
  reflexivity.
Qed.

(** X3. The number of days that enters the time to expiry is rounded down
    to whole days: for an option built by [__init__], it is the difference
    of the day numbers of the expiry date and of today's date when the
    valuation happens exactly at midnight, and one less at any other time
    of the day. *)
Theorem days_to_expiry_rounds_down (expiry : text) (self : ShareOption.t F)
    (now : datetime.t) :
  ShareOption.__init__ ticker share_price volatility market_cap dividend_yield sector expiry
  = Ok self ->
  valid_clock now = true ->
  datetime.days (datetime.sub (ShareOption.expiry_date self) now)
  = datetime.toordinal (ShareOption.expiry_date self) - datetime.toordinal now
    - (if at_midnight now then 0 else 1).
Proof.
  intros Hi Hn. apply sub_days_from_midnight; [| exact Hn].
  exact (init_expiry_at_midnight expiry self Hi).
Qed.

(** X4. The time of day of a valuation does not matter beyond midnight: two
    valuations of an option built by [__init__], at two instants of the
    same calendar day other than midnight, have the same outcome, value or
    exception. *)
Theorem same_day_same_outcome (expiry : text) (self : ShareOption.t F)
    (now1 now2 : datetime.t) (strike_price : float) (option_type : string) :
  ShareOption.__init__ ticker share_price volatility market_cap dividend_yield sector expiry
  = Ok self ->
  valid_clock now1 = true -> valid_clock now2 = true ->
  same_date now1 now2 = true ->
  at_midnight now1 = false -> at_midnight now2 = false ->
  ShareOption.calculate_option_value now1 self strike_price option_type
  = ShareOption.calculate_option_value now2 self strike_price option_type.
Proof.
  intros Hi H1 H2 Hd M1 M2.
  pose proof (init_expiry_at_midnight expiry self Hi) as He.
  unfold ShareOption.calculate_option_value.
  rewrite (sub_days_from_midnight _ now1 He H1), (sub_days_from_midnight _ now2 He H2).
  rewrite M1, M2, (toordinal_same_date now1 now2 Hd). reflexivity.
Qed.

End DaysToExpiry.

(** X3 for the option of the examples, valued at noon of the day before the
    expiry. *)
Lemma days_to_expiry_rounds_down_example :
  datetime.days (datetime.sub (ShareOption.expiry_date Example.option) Example.eve_noon)
  = 739434 - 739433 - 1.
Proof.
  apply (days_to_expiry_rounds_down (F := Example.exact)
           "ACME" 150%R 0.25%R 1000000%R 0.01%R "Technology" "2025-07-02"
           Example.option Example.eve_noon); reflexivity.
Defined.

Lemma same_day_same_outcome_example :
  ShareOption.calculate_option_value Example.eve_noon Example.option 100%R "call"
  = ShareOption.calculate_option_value eve_evening Example.option 100%R "call".
Proof.
  apply (same_day_same_outcome (F := Example.exact)
           "ACME" 150%R 0.25%R 1000000%R 0.01%R "Technology" "2025-07-02"
           Example.option Example.eve_noon eve_evening); reflexivity.
Defined.

(** ** Further properties: the rendered expiry date *)

Section RenderedExpiry.
Import datetime.

Context {F : PyFloat}.
Variables (ticker : string) (share_price volatility market_cap dividend_yield : float)
          (sector : string).

#[local] Abbreviation init :=
  (ShareOption.__init__ ticker share_price volatility market_cap dividend_yield sector).

(** X13. Rendering brings the expiry date to its canonical spelling where
    the year is written with four digits.  For an option built by
    [__init__] from any accepted string: when [strftime] pads the year, or
    the year is 1000 or later, the expiry that [__repr__] writes is a
    valid zero-padded YYYY-MM-DD date of ten characters, and building an
    option from it gives the same option again; when [strftime] does not
    pad and the year is below 1000, the expiry written is shorter and
    building an option from it raises ValueError. *)
Theorem repr_expiry_canonical (padded_year : bool) (expiry : text)
    (self : ShareOption.t F) :
  init expiry = Ok self ->
  exists rendered : string,
    ShareOption.__repr__ padded_year self
    = Share.__repr__ (ShareOption.super self) ++ ", expiry_date=" ++ rendered
    /\ (padded_year = true \/ 1000 <= year (ShareOption.expiry_date self) ->
        String.length rendered = 10%nat
        /\ Spec.is_iso_date rendered = true
        /\ init rendered = Ok self)
    /\ (padded_year = false /\ year (ShareOption.expiry_date self) < 1000 ->
        (String.length rendered < 10)%nat
        /\ init rendered = Raise (ValueError msg_time_data_no_match)).
Proof.
  intros Hi. exists (strftime_Ymd padded_year (ShareOption.expiry_date self)).
  split; [reflexivity |].
  destruct (init_inv _ _ _ _ _ _ _ _ Hi) as (y & m & d & Hv & _ & ->).
  destruct (valid_ymd_bounds y m d Hv) as (Hy & Hm & Hd).
  cbn [ShareOption.expiry_date year].
  split.
  - intros Hp.
    assert (Hr : strftime_Ymd padded_year (mk y m d 0 0 0 0)
                 = strftime_Ymd true (mk y m d 0 0 0 0)).
    { destruct padded_year; [reflexivity |].
      destruct Hp as [Hp | Hp]; [discriminate |].
      unfold strftime_Ymd. cbn [year]. rewrite (year_width_4 y Hp). reflexivity. }
    rewrite Hr.
    assert (Hiso : Spec.is_iso_date (strftime_Ymd true (mk y m d 0 0 0 0)) = true).
    { unfold Spec.is_iso_date. rewrite iso_fields_strftime by lia. exact Hv. }
    split; [reflexivity |]. split; [exact Hiso |].
    rewrite init_eval, (strptime_complete _ y m d Hv); [reflexivity |].
    apply canonical_accepted. lia.
  - intros [-> Hlt]. split.
    + rewrite strftime_length. cbn [year]. pose proof (year_width_short y Hlt). lia.
    + rewrite init_eval, strptime_short_year by lia. reflexivity.
Qed.

(** X14. The rendering tells options by their expiry: two options built by
    [__init__] with the same attributes of the share and with equal
    renderings are the same option, however their expiry dates were
    spelled and whether or not [strftime] pads the year. *)
Theorem repr_determines_expiry (padded_year : bool) (expiry1 expiry2 : text)
    (self1 self2 : ShareOption.t F) :
  init expiry1 = Ok self1 ->
  init expiry2 = Ok self2 ->
  ShareOption.__repr__ padded_year self1 = ShareOption.__repr__ padded_year self2 ->
  self1 = self2.
Proof.
  intros H1 H2 Hr.
  destruct (init_inv _ _ _ _ _ _ _ _ H1) as (y1 & m1 & d1 & V1 & _ & ->).
  destruct (init_inv _ _ _ _ _ _ _ _ H2) as (y2 & m2 & d2 & V2 & _ & ->).
  unfold ShareOption.__repr__ in Hr. cbn [ShareOption.super ShareOption.expiry_date] in Hr.
  apply append_inv_head in Hr. apply (append_inv_head ", expiry_date=") in Hr.
  pose proof (strftime_injective padded_year _ _ _ _ _ _ V1 V2 Hr) as Heq.
  congruence.
Qed.

End RenderedExpiry.

Lemma repr_expiry_canonical_example :
  exists rendered : string,
    ShareOption.__repr__ false (ShareOption.mk Example.share (datetime.mk 2025 1 5 0 0 0 0))
    = Share.__repr__ Example.share ++ ", expiry_date=" ++ rendered
    /\ (false = true \/ 1000 <= 2025 ->
        String.length rendered = 10%nat
        /\ Spec.is_iso_date rendered = true
        /\ ShareOption.__init__ (F := Example.exact)
             "ACME" 150%R 0.25%R 1000000%R 0.01%R "Technology" rendered
           = Ok (ShareOption.mk Example.share (datetime.mk 2025 1 5 0 0 0 0)))
    /\ (false = false /\ 2025 < 1000 ->
        (String.length rendered < 10)%nat
        /\ ShareOption.__init__ (F := Example.exact)
             "ACME" 150%R 0.25%R 1000000%R 0.01%R "Technology" rendered
           = Raise (ValueError msg_time_data_no_match)).
Proof.
  apply (repr_expiry_canonical (F := Example.exact)
           "ACME" 150%R 0.25%R 1000000%R 0.01%R "Technology" false "2025-1-5").
  reflexivity.
Defined.

Lemma repr_determines_expiry_example :
  ShareOption.mk Example.share (datetime.mk 2025 1 5 0 0 0 0)
  = ShareOption.mk Example.share (datetime.mk 2025 1 5 0 0 0 0).
Proof.
  apply (repr_determines_expiry (F := Example.exact)
           "ACME" 150%R 0.25%R 1000000%R 0.01%R "Technology" false "2025-1-5" "2025-01- 5");
    reflexivity.
Defined.

(** ** Further properties: the length of an expiry date *)

Section ExpiryLength.
Import datetime.

Lemma unpadded_length (n : Z) :
  (1 <= String.length (Spec.unpadded n) <= 2)%nat.
Proof.
  unfold Spec.unpadded. destruct (n <? 10); rewrite zero_padded_length; lia.
Qed.

Lemma accepted_spelling_length (s : text) (y m d : Z) :
  Spec.accepted_spelling s y m d -> (8 <= List.length s <= 10)%nat.
Proof.
  intros (ty & tm & td & HY & Hms & Hds & ->).
  destruct HY as (a & b & c & e & _ & _ & _ & _ & -> & _).
  assert (Lm : (1 <= List.length tm <= 2)%nat).
  { destruct Hms as [<- | [<- | []]]; rewrite text_of_string_length;
      [rewrite zero_padded_length; lia | apply unpadded_length]. }
  assert (Ld : (1 <= List.length td <= 2)%nat).
  { destruct Hds as [Hds | (b' & v & _ & [[-> _] | [-> _]])]; [| cbn; lia | cbn; lia].
    unfold Spec.day_spellings in Hds.
    destruct Hds as [<- | [<- | Hds]]; rewrite ?text_of_string_length;
      [rewrite zero_padded_length; lia | apply unpadded_length |].
    destruct (d <? 10) eqn:Hd; [| contradiction Hds].
    destruct Hds as [<- | []]. rewrite text_of_string_length.
    unfold Spec.unpadded. rewrite Hd. cbn. lia. }
  rewrite length_app. cbn [List.length]. rewrite length_app. cbn [List.length]. lia.
Qed.

Context {F : PyFloat}.
Variables (ticker : string) (share_price volatility market_cap dividend_yield : float)
          (sector : string).

(** X19. An expiry date that [__init__] accepts has eight to ten
    characters.  Any shorter or longer string, such as a date with a
    time of day after it or with a blank or a line end around it, raises
    ValueError. *)
Theorem init_expiry_length (expiry : text) :
  (forall self,
      ShareOption.__init__ ticker share_price volatility market_cap dividend_yield sector
        expiry = Ok self ->
      (8 <= List.length expiry <= 10)%nat)
  /\ ((List.length expiry < 8 \/ 10 < List.length expiry)%nat ->
      exists msg,
        ShareOption.__init__ ticker share_price volatility market_cap dividend_yield sector
          expiry = Raise (ValueError msg)).
Proof.
  assert (Hok : forall self,
      ShareOption.__init__ ticker share_price volatility market_cap dividend_yield sector
        expiry = Ok self ->
      (8 <= List.length expiry <= 10)%nat).
  { intros self Hi. destruct (init_inv _ _ _ _ _ _ _ _ Hi) as (y & m & d & _ & Hacc & _).
    exact (accepted_spelling_length expiry y m d Hacc). }
  split; [exact Hok |].
  intros Hlen.
  destruct (ShareOption.__init__ ticker share_price volatility market_cap dividend_yield
              sector expiry) as [self | e] eqn:Hi.
  - specialize (Hok self eq_refl). lia.
  - rewrite init_eval in Hi.
    destruct (strptime_Ymd expiry) as [dt | e'] eqn:Hp; cbn [bind] in Hi; [discriminate |].
    injection Hi as <-.
    destruct (strptime_raises_ValueError expiry e' Hp) as [msg ->].
    exists msg. reflexivity.
Qed.

End ExpiryLength.

(** ** Further properties: the script *)

Lemma lower_char_same_letter (c d : ascii) :
  same_letter c d = true -> lower_char c = lower_char d.
Proof.
  unfold same_letter. intros H. apply orb_prop in H as [H | H].
  - apply Ascii.eqb_eq in H. subst. reflexivity.
  - apply andb_prop in H as [H Hc]. apply andb_prop in H as [H1 H2].
    apply Nat.leb_le in H1, H2. apply Nat.eqb_eq in Hc.
    unfold lower_char. rewrite Hc.
    replace (nat_of_ascii d - 32 + 32)%nat with (nat_of_ascii d) by lia.
    rewrite ascii_nat_embedding.
    assert (Hu : ((65 <=? nat_of_ascii d - 32) && (nat_of_ascii d - 32 <=? 90))%nat = true).
    { apply andb_true_intro. split; apply Nat.leb_le; lia. }
    rewrite Hu. cbn [orb].
    assert (Hl : ((65 <=? nat_of_ascii d) && (nat_of_ascii d <=? 90)
                  || (192 <=? nat_of_ascii d) && (nat_of_ascii d <=? 222)
                     && negb (nat_of_ascii d =? 215))%nat = false).
    { apply orb_false_intro.
      - apply andb_false_intro2. apply Nat.leb_gt. lia.
      - apply andb_false_intro1, andb_false_intro1. apply Nat.leb_gt. lia. }
    rewrite Hl. reflexivity.
Qed.

Lemma str_lower_spells (typed kind : string) :
  spells typed kind = true -> str_lower typed = str_lower kind.
Proof.
  revert kind. induction typed as [| c t IH]; intros [| d k]; cbn [spells]; try discriminate.
  - reflexivity.
  - intros H. apply andb_prop in H as [Hc Ht].
    cbn [str_lower]. rewrite (lower_char_same_letter c d Hc), (IH k Ht). reflexivity.
Qed.

Section Script.

Context {F : PyFloat}.

(** X11. The script reads the kind without regard to case: a typed kind
    that spells "call" or "put" in any mix of capital and small letters is
    valued as that kind, by the method that itself compares exactly. *)
Theorem main_kind_case_insensitive (now : datetime.t)
    (ticker_symbol : string) (share_price market_cap dividend_yield : float)
    (sector : string) (expiry_date : text) (strike_price : float)
    (typed_kind kind : string) :
  kind = "call" \/ kind = "put" ->
  spells typed_kind kind = true ->
  main now ticker_symbol share_price market_cap dividend_yield sector expiry_date
       strike_price typed_kind
  = bind (ShareOption.__init__ ticker_symbol share_price (decimal 2 1) market_cap
            dividend_yield sector expiry_date)
      (fun share_option =>
         bind (ShareOption.calculate_option_value now share_option strike_price kind)
           (fun option_value =>
              Ok (Share.__init__ ticker_symbol share_price (decimal 2 1) market_cap
                    dividend_yield sector,
                  share_option, option_value))).
Proof.
  intros Hk Hs. unfold main. rewrite (str_lower_spells typed_kind kind Hs).
  destruct Hk as [-> | ->]; reflexivity.
Qed.

End Script.

Lemma main_kind_case_insensitive_example :
  main (F := Example.exact) Example.new_year "ACME" 150%R 1000000%R 0.01%R "Technology"
       "2025-07-02" 100%R "Call"
  = bind (ShareOption.__init__ (F := Example.exact) "ACME" 150%R (decimal 2 1) 1000000%R
            0.01%R "Technology" "2025-07-02")
      (fun share_option =>
         bind (ShareOption.calculate_option_value Example.new_year share_option 100%R "call")
           (fun option_value =>
              Ok (Share.__init__ (F := Example.exact) "ACME" 150%R (decimal 2 1) 1000000%R
                    0.01%R "Technology",
                  share_option, option_value))).
Proof.
  apply (main_kind_case_insensitive (F := Example.exact) Example.new_year
           "ACME" 150%R 1000000%R 0.01%R "Technology" "2025-07-02" 100%R "Call" "call").
  - left. reflexivity.
  - reflexivity.
Defined.

(** ** Further properties: day numbers follow the calendar *)

Section CalendarOrder.
Import datetime.

Lemma days_before_year_succ (y : Z) :
  _days_before_year (y + 1) = _days_before_year y + (if _is_leap y then 366 else 365).
Proof.
  unfold _days_before_year, _is_leap. cbv zeta.
  replace (y + 1 - 1) with y by lia.
  destruct (Z.eqb_spec (y mod 4) 0); destruct (Z.eqb_spec (y mod 100) 0);
    destruct (Z.eqb_spec (y mod 400) 0); cbn [negb andb orb];
    Z.div_mod_to_equations; lia.
Qed.

Lemma days_before_year_mono (y1 y2 : Z) :
  y1 <= y2 -> _days_before_year y1 <= _days_before_year y2.
Proof.
  intros H. replace y2 with (y1 + Z.of_nat (Z.to_nat (y2 - y1))) by lia.
  induction (Z.to_nat (y2 - y1)) as [| n IH]; [rewrite Z.add_0_r; lia |].
  replace (y1 + Z.of_nat (S n)) with (y1 + Z.of_nat n + 1) by lia.
  rewrite days_before_year_succ. destruct (_is_leap _); lia.
Qed.

Lemma month_cases (m : Z) :
  1 <= m <= 12 ->
  m = 1 \/ m = 2 \/ m = 3 \/ m = 4 \/ m = 5 \/ m = 6 \/ m = 7 \/ m = 8
  \/ m = 9 \/ m = 10 \/ m = 11 \/ m = 12.
Proof. lia. Qed.

Lemma valid_ymd_day (y m d : Z) :
  Spec.valid_ymd y m d = true ->
  1 <= y <= 9999 /\ 1 <= m <= 12 /\ 1 <= d <= Spec.month_length y m.
Proof.
  unfold Spec.valid_ymd. intros H.
  repeat (apply andb_prop in H as [H ?]). lia.
Qed.

(** Evaluates the entries of the table of the months. *)
Ltac eval_month :=
  repeat match goal with
         | |- context [nth ?n ?l ?d] =>
             let v := eval vm_compute in (nth n l d) in change (nth n l d) with v
         end;
  cbn [Z.ltb Z.eqb Z.compare Pos.compare Pos.compare_cont andb orb Pos.eqb].

(** The day of the year lies in the year. *)
Lemma day_of_year_bounds (y m d : Z) :
  Spec.valid_ymd y m d = true ->
  1 <= _days_before_month y m + d <= (if _is_leap y then 366 else 365).
Proof.
  intros Hv. destruct (valid_ymd_day y m d Hv) as (_ & Hm & Hd).
  revert Hd. unfold Spec.month_length, _days_before_month.
  change (Spec.leap_year y) with (_is_leap y).
  destruct (month_cases m Hm) as [-> | [-> | [-> | [-> | [-> | [-> | [-> | [-> | [-> | [-> |
    [-> | ->]]]]]]]]]]]; destruct (_is_leap y);
    eval_month; lia.
Qed.

Lemma day_of_year_mono (y m1 d1 m2 d2 : Z) :
  Spec.valid_ymd y m1 d1 = true -> Spec.valid_ymd y m2 d2 = true ->
  m1 < m2 ->
  _days_before_month y m1 + d1 < _days_before_month y m2 + d2.
Proof.
  intros H1 H2 Hlt.
  destruct (valid_ymd_day y m1 d1 H1) as (_ & Hm1 & Hd1).
  destruct (valid_ymd_day y m2 d2 H2) as (_ & Hm2 & Hd2).
  revert Hd1 Hd2. unfold Spec.month_length, _days_before_month.
  change (Spec.leap_year y) with (_is_leap y).
  destruct (month_cases m1 Hm1) as [-> | [-> | [-> | [-> | [-> | [-> | [-> | [-> | [-> | [-> |
    [-> | ->]]]]]]]]]]];
  destruct (month_cases m2 Hm2) as [-> | [-> | [-> | [-> | [-> | [-> | [-> | [-> | [-> | [-> |
    [-> | ->]]]]]]]]]]]; try lia;
  destruct (_is_leap y); eval_month; lia.
Qed.

Lemma toordinal_increasing (a b : datetime.t) :
  valid_date a = true -> valid_date b = true ->
  date_before a b -> toordinal a < toordinal b.
Proof.
  unfold valid_date, date_before, toordinal, _ymd2ord.
  intros Ha Hb [Hy | [Hy [Hm | [Hm Hd]]]].
  - pose proof (day_of_year_bounds _ _ _ Ha) as Ba.
    pose proof (day_of_year_bounds _ _ _ Hb) as Bb.
    pose proof (days_before_year_succ (year a)) as Hs.
    pose proof (days_before_year_mono (year a + 1) (year b) ltac:(lia)) as Hmono.
    destruct (_is_leap (year a)); destruct (_is_leap (year b)); lia.
  - rewrite Hy in *. pose proof (day_of_year_mono _ _ _ _ _ Ha Hb Hm). lia.
  - rewrite Hy, Hm. lia.
Qed.

(** X15. The day numbers whose difference is the number of days to the
    expiry follow the calendar: of two valid dates, the earlier one has the
    smaller day number, and equal day numbers mean the same date. *)
Theorem toordinal_follows_calendar (a b : datetime.t) :
  valid_date a = true -> valid_date b = true ->
  (toordinal a < toordinal b <-> date_before a b)
  /\ (toordinal a = toordinal b <->
      year a = year b /\ month a = month b /\ day a = day b).
Proof.
  intros Ha Hb.
  assert (Htri : date_before a b \/ date_before b a
                 \/ (year a = year b /\ month a = month b /\ day a = day b)).
  { unfold date_before. lia. }
  pose proof (toordinal_increasing a b Ha Hb) as Hab.
  pose proof (toordinal_increasing b a Hb Ha) as Hba.
  split; split.
  - intros Hlt. destruct Htri as [H | [H | (Hy & Hm & Hd)]]; [exact H | |].
    + specialize (Hba H). lia.
    + unfold toordinal in Hlt. rewrite Hy, Hm, Hd in Hlt. lia.
  - exact Hab.
  - intros Heq. destruct Htri as [H | [H | H]]; [| | exact H].
    + specialize (Hab H). lia.
    + specialize (Hba H). lia.
  - intros (Hy & Hm & Hd). unfold toordinal. rewrite Hy, Hm, Hd. reflexivity.
Qed.

End CalendarOrder.

Lemma toordinal_follows_calendar_example :
  (datetime.toordinal Example.new_year < datetime.toordinal Example.expiry
   <-> date_before Example.new_year Example.expiry)
  /\ (datetime.toordinal Example.new_year = datetime.toordinal Example.expiry <->
      datetime.year Example.new_year = datetime.year Example.expiry
      /\ datetime.month Example.new_year = datetime.month Example.expiry
      /\ datetime.day Example.new_year = datetime.day Example.expiry).
Proof.
  apply (toordinal_follows_calendar Example.new_year Example.expiry); reflexivity.
Defined.

(** ** Further properties: a strike of zero, for doubles *)

Section ZeroStrikeBinary64.

Variable P : Binary64.platform.

#[local] Abbreviation B := (Binary64.binary64 P).

Lemma days_per_year_not_zero :
  PrimFloat.eqb (Binary64.literal 3650 1) PrimFloat.zero = false.
Proof. vm_compute. reflexivity. Qed.

(** X16. For doubles too a strike of zero raises ZeroDivisionError, be it
    0.0 or -0.0, whatever the C library computes and whatever the kind:
    the quotient of price and strike is the first operation that can fail
    once the number of days has become a float. *)
Theorem zero_strike_raises_binary64
    (now : datetime.t) (self : ShareOption.t B) (K : PrimFloat.float) (ty : string)
    (days : PrimFloat.float) :
  PrimFloat.eqb K PrimFloat.zero = true ->
  Binary64.of_int (datetime.days (datetime.sub (ShareOption.expiry_date self) now))
  = Ok days ->
  ShareOption.calculate_option_value now self K ty
  = Raise (ZeroDivisionError msg_float_division_by_zero).
Proof.
  intros HK Hd. unfold ShareOption.calculate_option_value.
  cbn [float_of_int float_div decimal Binary64.binary64].
  rewrite Hd. cbn [bind].
  unfold Binary64.div at 1. rewrite days_per_year_not_zero. cbn [bind].
  unfold Binary64.div. rewrite HK. reflexivity.
Qed.

End ZeroStrikeBinary64.


(** X16 at the strike -0.0, for the option of the examples with doubles. *)
Lemma zero_strike_raises_binary64_example :
  PrimFloat.eqb ZeroStrike.minus_zero PrimFloat.zero = true
  /\ PrimFloat.eqb (PrimFloat.div PrimFloat.one ZeroStrike.minus_zero)
       PrimFloat.neg_infinity = true
  /\ forall P : Binary64.platform,
       ShareOption.calculate_option_value Example.new_year
         (ShareOption.mk
            (Share.__init__ (F := Binary64.binary64 P) "ACME"
               Binary64.Doubles.tiny_price Binary64.Doubles.quarter
               Binary64.Doubles.market_cap Binary64.Doubles.dividend_yield "Technology")
            Example.expiry)
         ZeroStrike.minus_zero "call"
       = Raise (ZeroDivisionError msg_float_division_by_zero).
Proof.
  split; [reflexivity |]. split; [reflexivity |].
  intros P.
  apply (zero_strike_raises_binary64 P Example.new_year _ ZeroStrike.minus_zero "call"
           ZeroStrike.half_year).
  - reflexivity.
  - vm_compute. reflexivity.
Defined.

(** ** Facts about doubles

    What the IEEE-754 operations do with zeros, infinities and NaN, read
    off their specification in the Standard Library. *)

Section DoubleFacts.
Import PrimFloat SpecFloat FloatOps FloatAxioms.

Lemma Prim2SF_zero : Prim2SF zero = S754_zero false.
Proof. reflexivity. Qed.

Lemma SFcompare_refl (x : spec_float) :
  x <> S754_nan -> SFcompare x x = Some Eq.
Proof.
  destruct x as [s | s | | s m e]; intros H; try reflexivity; [destruct s; reflexivity | congruence |].
  cbn. rewrite Z.compare_refl, Pos.compare_cont_refl. destruct s; reflexivity.
Qed.

Lemma is_nan_spec (x : float) : is_nan x = true <-> Prim2SF x = S754_nan.
Proof.
  unfold is_nan. rewrite eqb_spec. unfold SFeqb.
  destruct (Prim2SF x) as [s | s | | s m e] eqn:Hx.
  - rewrite SFcompare_refl by discriminate. split; discriminate.
  - rewrite SFcompare_refl by discriminate. split; discriminate.
  - cbn. split; reflexivity.
  - rewrite SFcompare_refl by discriminate. split; discriminate.
Qed.

Lemma is_infinity_spec (x : float) :
  is_infinity x = true <-> exists s, Prim2SF x = S754_infinity s.
Proof.
  unfold is_infinity. rewrite eqb_spec, abs_spec.
  change (Prim2SF infinity) with (S754_infinity false).
  destruct (Prim2SF x) as [s | s | | s m e]; cbn; split; try discriminate;
    try (intros [s' H]; discriminate H).
  - intros _. eexists; reflexivity.
  - reflexivity.
Qed.

Inductive finite_double (x : float) : Prop :=
| finite_zero (s : bool) : Prim2SF x = S754_zero s -> finite_double x
| finite_number (s : bool) (m : positive) (e : Z) :
    Prim2SF x = S754_finite s m e -> finite_double x.

Lemma is_finite_spec (x : float) : is_finite x = true <-> finite_double x.
Proof.
  unfold is_finite. split.
  - intros H. apply negb_true_iff, orb_false_iff in H as [Hn Hi].
    destruct (Prim2SF x) as [s | s | | s m e] eqn:Hx.
    + exact (finite_zero x s Hx).
    + assert (is_infinity x = true) by (apply is_infinity_spec; eexists; exact Hx). congruence.
    + assert (is_nan x = true) by (apply is_nan_spec; exact Hx). congruence.
    + exact (finite_number x s m e Hx).
  - intros H. apply negb_true_iff, orb_false_iff. split.
    + destruct (is_nan x) eqn:Hn; [| reflexivity]. apply is_nan_spec in Hn.
      destruct H; congruence.
    + destruct (is_infinity x) eqn:Hi; [| reflexivity]. apply is_infinity_spec in Hi as [s' Hi].
      destruct H; congruence.
Qed.

Lemma is_finite_not_nan (x : float) : is_finite x = true -> is_nan x = false.
Proof. unfold is_finite. intros H. apply negb_true_iff, orb_false_iff in H. tauto. Qed.

Lemma is_finite_not_infinity (x : float) : is_finite x = true -> is_infinity x = false.
Proof. unfold is_finite. intros H. apply negb_true_iff, orb_false_iff in H. tauto. Qed.

(** [x == 0.0] holds of the two zeros only. *)
Lemma eqb_zero_spec (x : float) :
  eqb x zero = true <-> exists s, Prim2SF x = S754_zero s.
Proof.
  rewrite eqb_spec, Prim2SF_zero. unfold SFeqb.
  destruct (Prim2SF x) as [s | s | | s m e]; cbn; split; try discriminate;
    try (intros [s' H]; discriminate H).
  - intros _. eexists; reflexivity.
  - reflexivity.
  - destruct s; discriminate.
  - destruct s; discriminate.
Qed.

(** [0.0 < x]: a positive number or plus infinity. *)
Lemma ltb_zero_spec (x : float) :
  ltb zero x = true <->
  Prim2SF x = S754_infinity false \/ exists m e, Prim2SF x = S754_finite false m e.
Proof.
  rewrite ltb_spec, Prim2SF_zero. unfold SFltb.
  destruct (Prim2SF x) as [s | s | | s m e]; cbn; split; try discriminate;
    try (intros [H | (m' & e' & H)]; discriminate H).
  - destruct s; [discriminate |]. intros _. left. reflexivity.
  - intros [H | (m' & e' & H)]; [| discriminate H]. injection H as ->. reflexivity.
  - destruct s; [discriminate |]. intros _. right. eexists _, _. reflexivity.
  - intros [H | (m' & e' & H)]; [discriminate H |]. injection H as -> _ _. reflexivity.
Qed.

(** [x < 0.0]: a negative number or minus infinity. *)
Lemma ltb_below_zero_spec (x : float) :
  ltb x zero = true <->
  Prim2SF x = S754_infinity true \/ exists m e, Prim2SF x = S754_finite true m e.
Proof.
  rewrite ltb_spec, Prim2SF_zero. unfold SFltb.
  destruct (Prim2SF x) as [s | s | | s m e]; cbn; split; try discriminate;
    try (intros [H | (m' & e' & H)]; discriminate H).
  - destruct s; [| discriminate]. intros _. left. reflexivity.
  - intros [H | (m' & e' & H)]; [| discriminate H]. injection H as ->. reflexivity.
  - destruct s; [| discriminate]. intros _. right. eexists _, _. reflexivity.
  - intros [H | (m' & e' & H)]; [discriminate H |]. injection H as -> _ _. reflexivity.
Qed.

(** A positive strike is not zero. *)
Lemma positive_not_zero (x : float) : ltb zero x = true -> eqb x zero = false.
Proof.
  intros H. destruct (eqb x zero) eqn:Hz; [| reflexivity].
  apply ltb_zero_spec in H. apply eqb_zero_spec in Hz as [s Hz].
  destruct H as [H | (m & e & H)]; congruence.
Qed.

(** The square root of a negative number is NaN, and the number is not. *)
Lemma sqrt_negative (x : float) :
  ltb x zero = true -> is_nan (sqrt x) = true /\ is_nan x = false.
Proof.
  intros H. apply ltb_below_zero_spec in H. split.
  - apply is_nan_spec. rewrite sqrt_spec.
    destruct H as [H | (m & e & H)]; rewrite H; reflexivity.
  - destruct (is_nan x) eqn:Hn; [| reflexivity]. apply is_nan_spec in Hn.
    destruct H as [H | (m & e & H)]; congruence.
Qed.

(** The square root of a zero is that zero. *)
Lemma sqrt_zero (x : float) :
  eqb x zero = true -> eqb (sqrt x) zero = true /\ is_finite (sqrt x) = true.
Proof.
  intros H. apply eqb_zero_spec in H as [s H].
  assert (Hs : Prim2SF (sqrt x) = S754_zero s) by (rewrite sqrt_spec, H; reflexivity).
  split; [apply eqb_zero_spec; eexists; exact Hs |].
  apply is_finite_spec. exact (finite_zero _ s Hs).
Qed.

(** A finite number times a zero is a zero. *)
Lemma mul_finite_zero (x y : float) :
  is_finite x = true -> eqb y zero = true -> eqb (mul x y) zero = true.
Proof.
  intros Hx Hy. apply is_finite_spec in Hx. apply eqb_zero_spec in Hy as [sy Hy].
  apply eqb_zero_spec. rewrite mul_spec, Hy.
  destruct Hx as [s Hx | s m e Hx]; rewrite Hx; eexists; reflexivity.
Qed.

(** A zero divided by a number that is neither zero nor NaN is a zero. *)
Lemma div_zero_by (x y : float) :
  eqb x zero = true -> eqb y zero = false -> is_nan y = false ->
  eqb (div x y) zero = true /\ is_finite (div x y) = true.
Proof.
  intros Hx Hy Hn. apply eqb_zero_spec in Hx as [sx Hx].
  assert (Hq : exists s, Prim2SF (div x y) = S754_zero s).
  { rewrite div_spec, Hx.
    destruct (Prim2SF y) as [s | s | | s m e] eqn:Hy'.
    - assert (eqb y zero = true) by (apply eqb_zero_spec; eexists; exact Hy'). congruence.
    - eexists; reflexivity.
    - assert (is_nan y = true) by (apply is_nan_spec; exact Hy'). congruence.
    - eexists; reflexivity. }
  destruct Hq as [s Hq]. split.
  - apply eqb_zero_spec. eexists; exact Hq.
  - apply is_finite_spec. exact (finite_zero _ s Hq).
Qed.

Lemma zero_not_positive (x : float) : eqb x zero = true -> ltb zero x = false.
Proof.
  intros H. apply eqb_zero_spec in H as [s H].
  destruct (ltb zero x) eqn:Hl; [| reflexivity].
  apply ltb_zero_spec in Hl as [Hl | (m & e & Hl)]; congruence.
Qed.

Lemma positive_not_negative (x : float) : ltb zero x = true -> ltb x zero = false.
Proof.
  intros H. destruct (ltb x zero) eqn:Hl; [| reflexivity].
  apply ltb_zero_spec in H. apply ltb_below_zero_spec in Hl.
  destruct H as [H | (m & e & H)], Hl as [Hl | (m' & e' & Hl)]; congruence.
Qed.

(** *** The sign of a rounded number

    Rounding keeps the sign: the result of rounding a number of sign [s]
    is a zero, a finite number or an infinity of that sign. *)

Definition signed (s : bool) (x : spec_float) : Prop :=
  x = S754_zero s \/ x = S754_infinity s \/ exists m e, x = S754_finite s m e.

Lemma shr_1_nonneg (mrs : shr_record) : 0 <= shr_m mrs -> 0 <= shr_m (shr_1 mrs).
Proof.
  destruct mrs as [m r s]. cbn [shr_m]. intros H.
  destruct m as [| p | p]; [cbn; lia | destruct p; cbn; lia | lia].
Qed.

Lemma iter_pos_shr_1_nonneg (p : positive) (mrs : shr_record) :
  0 <= shr_m mrs -> 0 <= shr_m (iter_pos shr_1 p mrs).
Proof.
  revert mrs. induction p as [p IH | p IH |]; intros mrs H; cbn [iter_pos].
  - apply IH, IH, shr_1_nonneg, H.
  - apply IH, IH, H.
  - apply shr_1_nonneg, H.
Qed.

Lemma shr_fexp_nonneg (m e : Z) (l : location) :
  0 <= m -> 0 <= shr_m (fst (shr_fexp prec emax m e l)).
Proof.
  intros H. unfold shr_fexp, shr.
  assert (H0 : 0 <= shr_m (shr_record_of_loc m l)) by (destruct l as [| []]; exact H).
  destruct (fexp prec emax (Zdigits2 m + e) - e) as [| p | p]; cbn [fst]; try exact H0.
  apply iter_pos_shr_1_nonneg, H0.
Qed.

Lemma round_nearest_even_nonneg (m : Z) (l : location) :
  0 <= m -> 0 <= round_nearest_even m l.
Proof.
  intros H. destruct l as [| []]; cbn; try lia. destruct (Z.even m); lia.
Qed.

Lemma binary_round_aux_signed (sx : bool) (mx ex : Z) (lx : location) :
  0 <= mx -> signed sx (binary_round_aux prec emax sx mx ex lx).
Proof.
  intros H. unfold binary_round_aux.
  pose proof (shr_fexp_nonneg mx ex lx H) as H1.
  destruct (shr_fexp prec emax mx ex lx) as [mrs' e']. cbn [fst] in H1.
  pose proof (shr_fexp_nonneg _ e' loc_Exact
                (round_nearest_even_nonneg _ (loc_of_shr_record mrs') H1)) as H2.
  destruct (shr_fexp prec emax (round_nearest_even (shr_m mrs') (loc_of_shr_record mrs'))
              e' loc_Exact) as [mrs'' e'']. cbn [fst] in H2.
  destruct (shr_m mrs'') as [| p | p].
  - left. reflexivity.
  - destruct (e'' <=? emax - prec)%Z; right; [right; eexists _, _ | left]; reflexivity.
  - lia.
Qed.

Lemma binary_round_signed (sx : bool) (mx : positive) (ex : Z) :
  signed sx (binary_round prec emax sx mx ex).
Proof.
  unfold binary_round. destruct (shl_align mx ex _) as [mz ez].
  apply binary_round_aux_signed. lia.
Qed.

Lemma binary_normalize_signed (n e : Z) :
  signed (n <? 0) (binary_normalize prec emax n e false).
Proof.
  destruct n as [| p | p]; cbn [binary_normalize Z.ltb Z.compare].
  - left. reflexivity.
  - apply binary_round_signed.
  - apply binary_round_signed.
Qed.

Lemma SFopp_signed (s : bool) (x : spec_float) : signed s x -> signed (negb s) (SFopp x).
Proof.
  intros [-> | [-> | (m & e & ->)]]; cbn;
    [left | right; left | right; right; eexists _, _]; reflexivity.
Qed.

(** The double of a rounded number has the sign of the number. *)
Lemma SF2Prim_signed (s : bool) (x : spec_float) :
  signed s x -> signed s (Prim2SF (SF2Prim x)).
Proof.
  intros [-> | [-> | (m & e & ->)]].
  - destruct s; left; reflexivity.
  - destruct s; right; left; reflexivity.
  - cbn [SF2Prim].
    set (pm := of_uint63 (Uint63Axioms.of_Z (Z.pos m))).
    assert (Hpm : signed false (Prim2SF pm)).
    { unfold pm. rewrite of_uint63_spec.
      pose proof (Uint63.to_Z_bounded (Uint63Axioms.of_Z (Z.pos m))) as [Hb _].
      pose proof (binary_normalize_signed
                    (Uint63Axioms.to_Z (Uint63Axioms.of_Z (Z.pos m))) 0) as Hs.
      replace (Uint63Axioms.to_Z (Uint63Axioms.of_Z (Z.pos m)) <? 0) with false in Hs
        by (symmetry; apply Z.ltb_ge; exact Hb).
      exact Hs. }
    assert (Hf : signed false (Prim2SF (Z.ldexp pm e))).
    { unfold Z.ldexp. rewrite ldshiftexp_spec.
      destruct Hpm as [-> | [-> | (m' & e' & ->)]]; cbn [SFldexp];
        [left; reflexivity | right; left; reflexivity | apply binary_round_signed]. }
    destruct s; [| exact Hf].
    rewrite opp_spec. exact (SFopp_signed false _ Hf).
Qed.

Lemma shiftl_pos_nonneg (m : positive) (s : Z) : 0 <= Z.shiftl (Z.pos m) s.
Proof. apply Z.shiftl_nonneg. lia. Qed.

(** A quotient by a positive number has the sign of the dividend. *)
Lemma div_signed (s : bool) (x y : float) (my : positive) (ey : Z) :
  signed s (Prim2SF x) -> Prim2SF y = S754_finite false my ey ->
  signed s (Prim2SF (div x y)).
Proof.
  intros Hx Hy. rewrite div_spec, Hy.
  destruct Hx as [-> | [-> | (m & e & ->)]]; cbn [SF64div SFdiv].
  - left. rewrite xorb_false_r. reflexivity.
  - right. left. rewrite xorb_false_r. reflexivity.
  - unfold SF64div, SFdiv. rewrite xorb_false_r.
    unfold SFdiv_core_binary.
    set (m' := match _ with 0 => Z.pos m | Z.pos _ => _ | Z.neg _ => 0 end).
    assert (Hm' : 0 <= m').
    { unfold m'. destruct (_ - _ - _) as [| p | p]; [lia | apply shiftl_pos_nonneg | lia]. }
    pose proof (Z_div_mod m' (Z.pos my) ltac:(lia)) as Hdiv.
    change IntDef.Z.div_eucl with Z.div_eucl.
    destruct (Z.div_eucl m' (Z.pos my)) as [q r].
    apply binary_round_aux_signed. nia.
Qed.

(** A number of negative sign is a zero or below zero. *)
Lemma signed_negative_cases (x : float) :
  signed true (Prim2SF x) -> eqb x zero = true \/ ltb x zero = true.
Proof.
  intros [H | [H | (m & e & H)]].
  - left. apply eqb_zero_spec. eexists; exact H.
  - right. apply ltb_below_zero_spec. left. exact H.
  - right. apply ltb_below_zero_spec. right. eexists _, _. exact H.
Qed.

End DoubleFacts.

(** ** The pricing engine, for every float arithmetic *)

Section PricingAnyFloat.

Context {F : PyFloat}.

Implicit Types (now : datetime.t) (self : ShareOption.t F).

Local Open Scope pyfloat_scope.

Lemma calculate_option_value_components now self (K : float) (ty : string) :
  ShareOption.calculate_option_value now self K ty
  = bind (formula_components now self K)
      (fun '(T, d1, d2) =>
         let S := Share.share_price (ShareOption.super self) in
         let r := ShareOption.calculate_risk_free_rate self in
         if String.eqb ty "call" then
           bind (math_exp (- r * T)) (fun e => Ok (S * norm_cdf d1 - K * e * norm_cdf d2))
         else if String.eqb ty "put" then
           bind (math_exp (- r * T))
                (fun e => Ok (K * e * norm_cdf (- d2) - S * norm_cdf (- d1)))
         else Raise (ValueError msg_invalid_option_type)).
Proof.
  unfold ShareOption.calculate_option_value, formula_components, days_to_expiry.
  repeat match goal with
         | |- bind ?r _ = bind (bind ?r _) _ => destruct r; cbn [bind]; [| reflexivity]
         end.
  reflexivity.
Qed.

(** An exception of the part before the test of the kind is the exception
    of the method, for every kind. *)
Lemma formula_error_every_kind now self (K : float) (e : exn) :
  formula_components now self K = Raise e ->
  forall ty, ShareOption.calculate_option_value now self K ty = Raise e.
Proof.
  intros H ty. rewrite calculate_option_value_components, H. reflexivity.
Qed.

(** An unknown kind is answered with its exception once the formula has
    been evaluated. *)
Lemma unknown_kind_after_formula now self (K : float) (ty : string) c :
  ty <> "call" -> ty <> "put" ->
  formula_components now self K = Ok c ->
  ShareOption.calculate_option_value now self K ty
  = Raise (ValueError msg_invalid_option_type).
Proof.
  intros Hc Hp H. rewrite calculate_option_value_components, H. cbn [bind].
  destruct c as [[T d1] d2].
  apply String.eqb_neq in Hc, Hp. rewrite Hc, Hp. reflexivity.
Qed.

Lemma value_needs_formula now self (K : float) (ty : string) (v : float) :
  ShareOption.calculate_option_value now self K ty = Ok v ->
  exists c, formula_components now self K = Ok c.
Proof.
  rewrite calculate_option_value_components.
  destruct (formula_components now self K) as [c | e]; cbn [bind]; [| discriminate].
  intros _. exists c. reflexivity.
Qed.

(** C1, as amended.  Whenever the operations of the formula succeed in the
    arithmetic of the floats, that is the conversion of the number of
    days, the divisions, [math.log], [**], [math.sqrt] and [math.exp],
    [calculate_option_value] computes with them
    d1 = (ln(S/K) + (r + 0.5 sigma^2) T) / (sigma sqrt T) and
    d2 = d1 - sigma sqrt T, where T is the number of days to the expiry
    divided by 365.0 and r the risk-free rate, and returns
    S Phi(d1) - K e^(-r T) Phi(d2) for "call" and
    K e^(-r T) Phi(-d2) - S Phi(-d1) for "put", each operation rounded as
    the floats round it. *)
Theorem calculate_option_value_black_scholes
    now self (K days T q lg v2 sq d1 e : float) :
  let S := Share.share_price (ShareOption.super self) in
  let sigma := Share.volatility (ShareOption.super self) in
  let r := ShareOption.calculate_risk_free_rate self in
  float_of_int (datetime.days (datetime.sub (ShareOption.expiry_date self) now)) = Ok days ->
  float_div days (decimal 3650 1) = Ok T ->
  float_div S K = Ok q ->
  math_log q = Ok lg ->
  float_pow_int sigma 2 = Ok v2 ->
  math_sqrt T = Ok sq ->
  float_div (lg + (r + decimal 5 1 * v2) * T) (sigma * sq) = Ok d1 ->
  math_exp (- r * T) = Ok e ->
  let d2 := d1 - sigma * sq in
  ShareOption.calculate_option_value now self K "call"
    = Ok (S * norm_cdf d1 - K * e * norm_cdf d2)
  /\ ShareOption.calculate_option_value now self K "put"
    = Ok (K * e * norm_cdf (- d2) - S * norm_cdf (- d1)).
Proof.
  intros S sigma r Hdays HT Hq Hlg Hv2 Hsq Hd1 He d2.
  unfold ShareOption.calculate_option_value.
  fold S sigma. fold r.
  rewrite Hdays. cbn [bind]. rewrite HT. cbn [bind]. rewrite Hq. cbn [bind].
  rewrite Hlg. cbn [bind]. rewrite Hv2. cbn [bind]. rewrite Hsq. cbn [bind].
  rewrite Hd1. cbn [bind]. rewrite He. cbn [bind].
  split; reflexivity.
Qed.


End PricingAnyFloat.

(** ** The pricing engine on doubles *)

Section PricingBinary64.
Import PrimFloat.

Variable P : Binary64.platform.

#[local] Abbreviation B := (Binary64.binary64 P).

Implicit Types (now : datetime.t) (self : ShareOption.t B).

Lemma math_1_ok (can_overflow : bool) (x r : float) :
  is_finite r = true -> Binary64.math_1 can_overflow x r = Ok r.
Proof.
  intros H. unfold Binary64.math_1.
  rewrite (is_finite_not_nan r H), (is_finite_not_infinity r H). reflexivity.
Qed.

Lemma math_1_inv (can_overflow : bool) (x r v : float) :
  Binary64.math_1 can_overflow x r = Ok v ->
  v = r /\ (is_nan r = true -> is_nan x = true).
Proof.
  unfold Binary64.math_1.
  destruct (is_nan r) eqn:Hr; cbn [andb].
  - destruct (is_nan x); cbn [negb]; [| discriminate].
    destruct (is_infinity r && is_finite x); [destruct can_overflow; discriminate |].
    intros [= <-]. auto.
  - destruct (is_infinity r && is_finite x); [destruct can_overflow; discriminate |].
    intros [= <-]. split; [reflexivity | discriminate].
Qed.

(** [math.log] of a number that is not positive, NaN apart, raises. *)
Lemma math_log_not_positive (q : float) :
  is_nan q = false -> ltb zero q = false ->
  math_log (PyFloat := B) q = Raise (ValueError msg_math_domain_error).
Proof.
  intros Hn Hp. cbn [math_log Binary64.binary64].
  unfold Binary64.m_log. rewrite Hp, Hn.
  destruct (is_finite q) eqn:Hf.
  - destruct (eqb q zero); unfold Binary64.math_1; rewrite Hn, Hf; reflexivity.
  - unfold Binary64.math_1. rewrite Hn. reflexivity.
Qed.

Lemma math_log_positive (q : float) :
  ltb zero q = true -> is_finite q = true -> is_finite (Binary64.c_log P q) = true ->
  math_log (PyFloat := B) q = Ok (Binary64.c_log P q).
Proof.
  intros Hp Hf Hc. cbn [math_log Binary64.binary64].
  unfold Binary64.m_log. rewrite Hf, Hp. apply math_1_ok, Hc.
Qed.

(** [math.sqrt] of a negative number raises. *)
Lemma math_sqrt_negative (T : float) :
  ltb T zero = true ->
  math_sqrt (PyFloat := B) T = Raise (ValueError msg_math_domain_error).
Proof.
  intros H. destruct (sqrt_negative T H) as [Hs Hn].
  cbn [math_sqrt Binary64.binary64]. unfold Binary64.math_1. rewrite Hs, Hn. reflexivity.
Qed.

Lemma math_sqrt_zero (T : float) :
  eqb T zero = true ->
  math_sqrt (PyFloat := B) T = Ok (sqrt T) /\ eqb (sqrt T) zero = true.
Proof.
  intros H. destruct (sqrt_zero T H) as [Hz Hf].
  split; [apply math_1_ok, Hf | exact Hz].
Qed.

(** The method on doubles, operation by operation. *)
Lemma calculate_option_value_unfold now self (K : float) (ty : string) (days : float) :
  Binary64.of_int (days_to_expiry now self) = Ok days ->
  let S := Share.share_price (ShareOption.super self) in
  let sigma := Share.volatility (ShareOption.super self) in
  let T := div days (Binary64.literal 3650 1) in
  let r := Binary64.literal 3 2 in
  ShareOption.calculate_option_value now self K ty
  = (q <- Binary64.div S K ;;
     lg <- math_log (PyFloat := B) q ;;
     v2 <- Binary64.pow_int P sigma 2 ;;
     sq <- math_sqrt (PyFloat := B) T ;;
     d1 <- Binary64.div (lg + (r + Binary64.literal 5 1 * v2) * T) (sigma * sq) ;;
     let d2 := d1 - sigma * sq in
     if String.eqb ty "call" then
       e <- math_exp (PyFloat := B) (- r * T) ;;
       Ok (S * Binary64.ndtr P d1 - K * e * Binary64.ndtr P d2)
     else if String.eqb ty "put" then
       e <- math_exp (PyFloat := B) (- r * T) ;;
       Ok (K * e * Binary64.ndtr P (- d2) - S * Binary64.ndtr P (- d1))
     else Raise (ValueError msg_invalid_option_type))%py%float.
Proof.
  intros Hd S sigma T r.
  unfold ShareOption.calculate_option_value. fold (days_to_expiry now self).
  cbn [float_of_int float_div decimal float_pow_int norm_cdf
       float_neg float_add float_sub float_mul Binary64.binary64
       ShareOption.calculate_risk_free_rate].
  rewrite Hd. cbn [bind].
  unfold Binary64.div at 1. rewrite days_per_year_not_zero. cbn [bind].
  fold S sigma T r.
  destruct (Binary64.div S K) as [q | e]; cbn [bind]; [| reflexivity].
  destruct (math_log (PyFloat := B) q) as [lg | e]; cbn [bind]; [| reflexivity].
  destruct (Binary64.pow_int P sigma 2) as [v2 | e]; cbn [bind]; [| reflexivity].
  destruct (math_sqrt (PyFloat := B) T) as [sq | e]; cbn [bind]; [| reflexivity].
  reflexivity.
Qed.


(** X1. On doubles, whatever the C library computes, a value is returned
    only if the strike is not zero, the quotient of share price and strike
    has not rounded to zero and is positive (or NaN), the time to expiry
    is not negative, the product of the volatility and the square root of
    the time is not zero, and the kind is "call" or "put". *)
Theorem value_only_if_binary64 now self (K v : float) (ty : string) :
  ShareOption.calculate_option_value now self K ty = Ok v ->
  exists days,
    Binary64.of_int (datetime.days (datetime.sub (ShareOption.expiry_date self) now))
    = Ok days
    /\ let S := Share.share_price (ShareOption.super self) in
       let sigma := Share.volatility (ShareOption.super self) in
       let T := div days (Binary64.literal 3650 1) in
       eqb K zero = false
       /\ (is_nan (div S K) = true \/ ltb zero (div S K) = true)
       /\ ltb T zero = false
       /\ eqb (sigma * sqrt T) zero = false
       /\ (ty = "call"%string \/ ty = "put"%string).
Proof.
  intros Hv.
  destruct (Binary64.of_int (days_to_expiry now self)) as [days | e] eqn:Hd.
  2:{ unfold ShareOption.calculate_option_value in Hv. fold (days_to_expiry now self) in Hv.
      cbn [float_of_int Binary64.binary64] in Hv. rewrite Hd in Hv. discriminate Hv. }
  exists days. split; [exact Hd |]. cbv zeta.
  rewrite (calculate_option_value_unfold now self K ty days Hd) in Hv. cbv zeta in Hv.
  set (S := Share.share_price (ShareOption.super self)) in *.
  set (sigma := Share.volatility (ShareOption.super self)) in *.
  set (T := div days (Binary64.literal 3650 1)) in *.
  unfold Binary64.div at 1 in Hv.
  destruct (eqb K zero) eqn:HK; [discriminate Hv |]. cbn [bind] in Hv.
  split; [reflexivity |].
  assert (Hq : is_nan (div S K) = true \/ ltb zero (div S K) = true).
  { destruct (is_nan (div S K)) eqn:Hn; [left; reflexivity | right].
    destruct (ltb zero (div S K)) eqn:Hp; [reflexivity |].
    rewrite (math_log_not_positive _ Hn Hp) in Hv. discriminate Hv. }
  split; [exact Hq |].
  destruct (math_log (PyFloat := B) (div S K)) as [lg | e]; cbn [bind] in Hv; [| discriminate Hv].
  destruct (Binary64.pow_int P sigma 2) as [v2 | e]; cbn [bind] in Hv; [| discriminate Hv].
  assert (HT : ltb T zero = false).
  { destruct (ltb T zero) eqn:Hneg; [| reflexivity].
    rewrite (math_sqrt_negative T Hneg) in Hv. discriminate Hv. }
  split; [exact HT |].
  destruct (math_sqrt (PyFloat := B) T) as [sq | e] eqn:Hsq; cbn [bind] in Hv; [| discriminate Hv].
  cbn [math_sqrt Binary64.binary64] in Hsq.
  apply math_1_inv in Hsq as [-> _].
  unfold Binary64.div at 1 in Hv.
  destruct (eqb (sigma * sqrt T) zero) eqn:Hden; [discriminate Hv |]. cbn [bind] in Hv.
  split; [reflexivity |].
  destruct (String.eqb_spec ty "call") as [-> | Hc]; [left; reflexivity |].
  destruct (String.eqb_spec ty "put") as [-> | Hp]; [right; reflexivity |].
  discriminate Hv.
Qed.

(** X2. Which exception a valuation raises on doubles, whatever the C
    library computes and whatever the kind, once the number of days is a
    float: a quotient of share price and strike that is zero after
    rounding or negative makes [math.log] raise ValueError; an exception
    of the square of the volatility, which is computed next, is the
    exception of the method; after that a negative time to expiry makes
    [math.sqrt] raise ValueError; and after that a product of the
    volatility and the square root of the time that is zero makes the
    division raise ZeroDivisionError. *)
Theorem calculate_option_value_errors_binary64
    now self (K days : float) (ty : string) :
  Binary64.of_int (datetime.days (datetime.sub (ShareOption.expiry_date self) now))
  = Ok days ->
  let S := Share.share_price (ShareOption.super self) in
  let sigma := Share.volatility (ShareOption.super self) in
  let T := div days (Binary64.literal 3650 1) in
  (eqb K zero = false -> is_nan (div S K) = false -> ltb zero (div S K) = false ->
   ShareOption.calculate_option_value now self K ty
   = Raise (ValueError msg_math_domain_error))
  /\ (forall lg e,
        eqb K zero = false -> math_log (PyFloat := B) (div S K) = Ok lg ->
        Binary64.pow_int P sigma 2 = Raise e ->
        ShareOption.calculate_option_value now self K ty = Raise e)
  /\ (forall lg v2,
        eqb K zero = false -> math_log (PyFloat := B) (div S K) = Ok lg ->
        Binary64.pow_int P sigma 2 = Ok v2 ->
        ltb T zero = true ->
        ShareOption.calculate_option_value now self K ty
        = Raise (ValueError msg_math_domain_error))
  /\ (forall lg v2 sq,
        eqb K zero = false -> math_log (PyFloat := B) (div S K) = Ok lg ->
        Binary64.pow_int P sigma 2 = Ok v2 ->
        math_sqrt (PyFloat := B) T = Ok sq ->
        eqb (sigma * sq) zero = true ->
        ShareOption.calculate_option_value now self K ty
        = Raise (ZeroDivisionError msg_float_division_by_zero)).
Proof.
  intros Hd S sigma T.
  rewrite (calculate_option_value_unfold now self K ty days Hd). cbv zeta.
  fold S sigma T.
  repeat split.
  - intros HK Hn Hp. unfold Binary64.div at 1. rewrite HK. cbn [bind].
    rewrite (math_log_not_positive _ Hn Hp). reflexivity.
  - intros lg e HK Hlg Hv2. unfold Binary64.div at 1. rewrite HK. cbn [bind].
    rewrite Hlg. cbn [bind]. rewrite Hv2. reflexivity.
  - intros lg v2 HK Hlg Hv2 HT. unfold Binary64.div at 1. rewrite HK. cbn [bind].
    rewrite Hlg. cbn [bind]. rewrite Hv2. cbn [bind].
    rewrite (math_sqrt_negative T HT). reflexivity.
  - intros lg v2 sq HK Hlg Hv2 Hsq Hz. unfold Binary64.div at 1. rewrite HK. cbn [bind].
    rewrite Hlg. cbn [bind]. rewrite Hv2. cbn [bind]. rewrite Hsq. cbn [bind].
    unfold Binary64.div at 1. rewrite Hz. reflexivity.
Qed.

(** A time to expiry that is zero or negative leaves no value, for a
    finite volatility. *)
Lemma no_value_without_time now self (K days : float) (ty : string) :
  Binary64.of_int (days_to_expiry now self) = Ok days ->
  is_finite (Share.volatility (ShareOption.super self)) = true ->
  eqb (div days (Binary64.literal 3650 1)) zero = true
  \/ ltb (div days (Binary64.literal 3650 1)) zero = true ->
  exists e, ShareOption.calculate_option_value now self K ty = Raise e.
Proof.
  intros Hd Hvol HT.
  rewrite (calculate_option_value_unfold now self K ty days Hd). cbv zeta.
  set (T := div days (Binary64.literal 3650 1)) in *.
  destruct (Binary64.div _ K) as [q | e]; cbn [bind]; [| eexists; reflexivity].
  destruct (math_log (PyFloat := B) q) as [lg | e]; cbn [bind]; [| eexists; reflexivity].
  destruct (Binary64.pow_int P _ 2) as [v2 | e]; cbn [bind]; [| eexists; reflexivity].
  destruct HT as [Hz | Hneg].
  - destruct (math_sqrt_zero T Hz) as [-> Hs]. cbn [bind].
    unfold Binary64.div at 1. rewrite (mul_finite_zero _ _ Hvol Hs).
    eexists; reflexivity.
  - rewrite (math_sqrt_negative T Hneg). eexists; reflexivity.
Qed.

Lemma days_per_year_finite :
  FloatOps.Prim2SF (Binary64.literal 3650 1)
  = SpecFloat.S754_finite false 6421147906211840 (-44).
Proof. vm_compute. reflexivity. Qed.

(** The float of a number of days that is not positive, divided by 365.0,
    is a zero or negative. *)
Lemma time_not_positive (n : Z) (days : float) :
  n <= 0 -> Binary64.of_int n = Ok days ->
  eqb (div days (Binary64.literal 3650 1)) zero = true
  \/ ltb (div days (Binary64.literal 3650 1)) zero = true.
Proof.
  intros Hn Hd. unfold Binary64.of_int in Hd.
  destruct (is_infinity _); [discriminate Hd |]. injection Hd as <-.
  pose proof (SF2Prim_signed _ _ (binary_normalize_signed n 0)) as Hs.
  destruct (Z.ltb_spec n 0) as [Hlt | Hge].
  - apply signed_negative_cases.
    exact (div_signed true _ _ _ _ Hs days_per_year_finite).
  - assert (n = 0) by lia. subst n. left. vm_compute. reflexivity.
Qed.

End PricingBinary64.

(** ** Annualized volatility on doubles *)

Section VolatilityBinary64.
Import PrimFloat.

Variable P : Binary64.platform.

#[local] Abbreviation B := (Binary64.binary64 P).
#[local] Abbreviation half := (Binary64.literal 5 1).

Lemma half_facts :
  eqb half zero = false /\ is_nan half = false /\ is_infinity half = false
  /\ ltb half zero = false /\ Binary64.is_integral half = false
  /\ Binary64.is_odd_integer half = false.
Proof. repeat split; vm_compute; reflexivity. Qed.

(** The float of an [int] is not NaN, and has the sign of the [int]. *)
Lemma of_int_signed (n : Z) (x : float) :
  Binary64.of_int n = Ok x ->
  is_nan x = false /\ is_infinity x = false
  /\ (0 <= n -> ltb x zero = false)
  /\ (n < 0 -> eqb x zero = false -> ltb x zero = true).
Proof.
  unfold Binary64.of_int. intros H.
  destruct (is_infinity _) eqn:Hi; [discriminate H |]. injection H as <-.
  pose proof (SF2Prim_signed _ _ (binary_normalize_signed n 0)) as Hs.
  set (x := FloatOps.SF2Prim _) in *.
  split.
  { destruct (is_nan x) eqn:Hn; [| reflexivity]. apply is_nan_spec in Hn.
    destruct Hs as [Hs | [Hs | (m & e & Hs)]]; congruence. }
  split; [exact Hi |]. split.
  - intros Hn. replace (n <? 0) with false in Hs by (symmetry; apply Z.ltb_ge; exact Hn).
    destruct (ltb x zero) eqn:Hl; [| reflexivity].
    apply ltb_below_zero_spec in Hl.
    destruct Hs as [Hs | [Hs | (m & e & Hs)]], Hl as [Hl | (m' & e' & Hl)]; congruence.
  - intros Hn Hz. replace (n <? 0) with true in Hs by (symmetry; apply Z.ltb_lt; exact Hn).
    destruct (signed_negative_cases x Hs) as [H0 | Hneg]; [congruence | exact Hneg].
Qed.

(** [x ** 0.5] for the float [x] of an [int]. *)
Lemma pow_half (n : Z) (x : float) :
  Binary64.of_int n = Ok x ->
  Binary64.pow P x half =
    if eqb x zero then Ok (Float zero)
    else if ltb x zero
    then bind (Binary64.complex_pow P x half) (fun p => Ok (Complex (fst p) (snd p)))
    else if eqb x one then Ok (Float one)
    else bind (Binary64.libm_pow P x half) (fun y => Ok (Float y)).
Proof.
  intros Hx. destruct (of_int_signed n x Hx) as (Hn & Hi & _ & _).
  destruct half_facts as (H0 & Hhn & Hhi & Hhneg & Hint & Hodd).
  unfold Binary64.pow, Binary64.pow_real.
  rewrite H0, Hn, Hhn, Hhi, Hi, Hodd, Hhneg, Hint.
  destruct (eqb x zero); [reflexivity |].
  destruct (ltb x zero); cbn [andb negb]; [reflexivity |].
  destruct (eqb x one); [reflexivity |].
  destruct (Binary64.libm_pow P x half); reflexivity.
Qed.

Lemma calculate_annualized_volatility_unfold (self : Share.t B) (n : Z) (x : float) :
  Binary64.of_int n = Ok x ->
  Share.calculate_annualized_volatility self n =
    let volatility := Share.volatility self in
    if eqb x zero then Ok (Float (mul volatility zero))
    else if ltb x zero
    then bind (Binary64.complex_pow P x half)
           (fun p => Ok (Complex
              (sub (mul volatility (fst p)) (mul (Binary64.literal 0 1) (snd p)))
              (add (mul volatility (snd p)) (mul (Binary64.literal 0 1) (fst p)))))
    else if eqb x one then Ok (Float (mul volatility one))
    else bind (Binary64.libm_pow P x half) (fun y => Ok (Float (mul volatility y))).
Proof.
  intros Hx. unfold Share.calculate_annualized_volatility.
  cbn [float_of_int float_pow decimal Binary64.binary64].
  rewrite Hx. cbn [bind]. rewrite (pow_half n x Hx). cbv zeta.
  destruct (eqb x zero); [reflexivity |].
  destruct (ltb x zero).
  { destruct (Binary64.complex_pow P x half) as [[re im] | e]; reflexivity. }
  destruct (eqb x one); [reflexivity |].
  destruct (Binary64.libm_pow P x half); reflexivity.
Qed.

End VolatilityBinary64.

(** C7, as amended.  [calculate_annualized_volatility] returns the product,
    in floats, of the volatility and [trading_days ** 0.5].  On doubles,
    with x the float of the number of days: the power is 0.0 for x = 0.0
    and 1.0 for x = 1.0, the power of complex numbers for a negative x,
    so that the result is then a complex number, and otherwise [pow(x, 0.5)]
    of the C library, whose overflow raises OverflowError; a number of days
    too large for a float raises OverflowError.  The result depends on the
    instrument through its volatility only; the default number of days is
    252; and with volatility 0.02 and 252 days, where the C library returns
    15.874507866387544 for the power, the result is 0.3174901573277509,
    within 0.001 of 0.3175. *)
Theorem calculate_annualized_volatility_spec :
  (forall (P : Binary64.platform) (self : Share.t (Binary64.binary64 P)) (n : Z)
          (x : PrimFloat.float),
      Binary64.of_int n = Ok x ->
      Share.calculate_annualized_volatility self n =
        let volatility := Share.volatility self in
        let half := Binary64.literal 5 1 in
        if PrimFloat.eqb x PrimFloat.zero
        then Ok (Float (PrimFloat.mul volatility PrimFloat.zero))
        else if PrimFloat.ltb x PrimFloat.zero
        then bind (Binary64.complex_pow P x half)
               (fun p => Ok (Complex
                  (PrimFloat.sub (PrimFloat.mul volatility (fst p))
                                 (PrimFloat.mul (Binary64.literal 0 1) (snd p)))
                  (PrimFloat.add (PrimFloat.mul volatility (snd p))
                                 (PrimFloat.mul (Binary64.literal 0 1) (fst p)))))
        else if PrimFloat.eqb x PrimFloat.one
        then Ok (Float (PrimFloat.mul volatility PrimFloat.one))
        else bind (Binary64.libm_pow P x half)
               (fun y => Ok (Float (PrimFloat.mul volatility y))))
  /\ (forall (P : Binary64.platform) (self : Share.t (Binary64.binary64 P)) (n : Z) (e : exn),
         Binary64.of_int n = Raise e ->
         Share.calculate_annualized_volatility self n = Raise e)
  /\ (forall (F : PyFloat) (self self' : Share.t F) (trading_days : Z),
         Share.volatility self = Share.volatility self' ->
         Share.calculate_annualized_volatility self trading_days
         = Share.calculate_annualized_volatility self' trading_days)
  /\ Share.default_trading_days = 252
  /\ (forall (P : Binary64.platform) (self : Share.t (Binary64.binary64 P)),
         Share.volatility self = Reference.two_percent ->
         Binary64.c_pow P Reference.days_252 (Binary64.literal 5 1)
         = (Reference.root_252, Binary64.ENONE) ->
         Share.calculate_annualized_volatility self Share.default_trading_days
         = Ok (Float Reference.annualized))
  /\ PrimFloat.ltb (PrimFloat.abs (PrimFloat.sub Reference.annualized Reference.target))
                   Reference.tolerance = true.
Proof.
  split; [intros P self n x Hx; apply calculate_annualized_volatility_unfold; exact Hx |].
  split.
  { intros P self n e He. unfold Share.calculate_annualized_volatility.
    cbn [float_of_int Binary64.binary64]. rewrite He. reflexivity. }
  split.
  { intros F self self' n Hv. unfold Share.calculate_annualized_volatility.
    rewrite Hv. reflexivity. }
  split; [reflexivity |].
  split; [| vm_compute; reflexivity].
  intros P self Hv Hpow. change Share.default_trading_days with 252.
  rewrite (calculate_annualized_volatility_unfold P self 252 Reference.days_252)
    by (vm_compute; reflexivity).
  cbv zeta. rewrite Hv.
  change (PrimFloat.eqb Reference.days_252 PrimFloat.zero) with false.
  change (PrimFloat.ltb Reference.days_252 PrimFloat.zero) with false.
  change (PrimFloat.eqb Reference.days_252 PrimFloat.one) with false.
  cbv iota. unfold Binary64.libm_pow. rewrite Hpow.
  vm_compute. reflexivity.
Qed.

(** C7 as stated fails.  A number of trading days too large for a float,
    such as 10^400, raises OverflowError; and with -4 trading days the
    result is no float: the power of complex numbers gives a complex number
    or raises. *)
Lemma annualized_volatility_no_value :
  (forall (P : Binary64.platform) (self : Share.t (Binary64.binary64 P)),
      Share.calculate_annualized_volatility self (10 ^ 400)
      = Raise (OverflowError msg_int_too_large))
  /\ (forall (P : Binary64.platform) (self : Share.t (Binary64.binary64 P))
             (v : PrimFloat.float),
         Share.calculate_annualized_volatility self (-4) <> Ok (Float v))
  /\ Share.calculate_annualized_volatility (F := Binary64.binary64 Reference.libm)
       Reference.share (-4)
     = Ok (Complex Reference.minus_four_real Reference.minus_four_imag).
Proof.
  split; [| split].
  - intros P self. unfold Share.calculate_annualized_volatility.
    cbn [float_of_int Binary64.binary64].
    replace (Binary64.of_int (10 ^ 400)) with
      (Raise (A := PrimFloat.float) (OverflowError msg_int_too_large))
      by (vm_compute; reflexivity).
    reflexivity.
  - intros P self v.
    rewrite (calculate_annualized_volatility_unfold P self (-4)
               Reference.minus_four)
      by (vm_compute; reflexivity).
    cbv zeta.
    change (PrimFloat.eqb Reference.minus_four PrimFloat.zero) with false.
    change (PrimFloat.ltb Reference.minus_four PrimFloat.zero) with true.
    cbv iota.
    destruct (Binary64.complex_pow P _ _) as [p | e]; cbn [bind]; discriminate.
  - vm_compute. reflexivity.
Qed.

(** ** The last days and the script, on doubles *)

Section LastDaysBinary64.
Import PrimFloat.

Variable P : Binary64.platform.

#[local] Abbreviation B := (Binary64.binary64 P).

(** X5. An option cannot be valued in its last days.  For an option built
    by [__init__] with a finite volatility, a valuation on doubles at an
    instant other than midnight on the day before the expiry date, on the
    expiry date or on any later day returns no value, whatever the C
    library computes: the time to expiry is then zero or negative. *)
Theorem no_value_in_last_days
    (ticker : string) (share_price volatility market_cap dividend_yield : float)
    (sector : string) (expiry : text) (self : ShareOption.t B) (now : datetime.t)
    (K : float) (ty : string) :
  ShareOption.__init__ (F := B) ticker share_price volatility market_cap dividend_yield
    sector expiry = Ok self ->
  valid_clock now = true -> at_midnight now = false ->
  is_finite volatility = true ->
  datetime.toordinal (ShareOption.expiry_date self) - datetime.toordinal now <= 1 ->
  exists e, ShareOption.calculate_option_value now self K ty = Raise e.
Proof.
  intros Hi Hn Hm Hvol Hahead.
  pose proof (init_expiry_at_midnight (F := B) _ _ _ _ _ _ expiry self Hi) as He.
  pose proof (sub_days_from_midnight _ now He Hn) as Hd. rewrite Hm in Hd.
  assert (Hv : Share.volatility (ShareOption.super self) = volatility).
  { rewrite init_eval in Hi.
    destruct (datetime.strptime_Ymd expiry); cbn [bind] in Hi; [| discriminate].
    injection Hi as <-. reflexivity. }
  destruct (Binary64.of_int (days_to_expiry now self)) as [days | e] eqn:Hdays.
  - apply (no_value_without_time P now self K days ty Hdays).
    + rewrite Hv. exact Hvol.
    + apply (time_not_positive (days_to_expiry now self) days); [| exact Hdays].
      unfold days_to_expiry. lia.
  - exists e. unfold ShareOption.calculate_option_value.
    fold (days_to_expiry now self). cbn [float_of_int Binary64.binary64].
    rewrite Hdays. reflexivity.
Qed.

(** X12. With the share price 0.0 that the script falls back to when the
    lookup of the closing price fails, the script never reaches a value on
    doubles, whatever is typed, once [float] has read the strike and the
    strike is not NaN: it raises the ValueError of the expiry date or,
    when the option is built and the number of days is a float,
    ZeroDivisionError for a strike of zero and ValueError from the
    logarithm of zero for any other strike. *)
Theorem main_fallback_price_never_values (now : datetime.t)
    (ticker_symbol : string) (market_cap dividend_yield : float)
    (sector : string) (expiry_date : text) (strike_price : float)
    (typed_kind : string) :
  let run :=
    main (F := B) now ticker_symbol fallback_share_price market_cap dividend_yield sector
         expiry_date strike_price typed_kind in
  let built :=
    ShareOption.__init__ (F := B) ticker_symbol fallback_share_price (decimal 2 1)
      market_cap dividend_yield sector expiry_date in
  is_nan strike_price = false ->
  (exists e, run = Raise e)
  /\ (forall e, built = Raise e -> run = Raise e)
  /\ (forall share_option days,
        built = Ok share_option ->
        Binary64.of_int (days_to_expiry now share_option) = Ok days ->
        run = if eqb strike_price zero
              then Raise (ZeroDivisionError msg_float_division_by_zero)
              else Raise (ValueError msg_math_domain_error)).
Proof.
  intros run built HK.
  assert (Hrun : forall share_option days,
            built = Ok share_option ->
            Binary64.of_int (days_to_expiry now share_option) = Ok days ->
            run = if eqb strike_price zero
                  then Raise (ZeroDivisionError msg_float_division_by_zero)
                  else Raise (ValueError msg_math_domain_error)).
  { intros share_option days Hb Hd. subst run. unfold main. fold built. rewrite Hb.
    cbn [bind].
    rewrite (calculate_option_value_unfold P now share_option strike_price _ days Hd).
    cbv zeta.
    assert (Hs : Share.share_price (ShareOption.super share_option) = zero).
    { subst built. rewrite init_eval in Hb.
      destruct (datetime.strptime_Ymd expiry_date); cbn [bind] in Hb; [| discriminate].
      injection Hb as <-. vm_compute. reflexivity. }
    rewrite Hs. unfold Binary64.div at 1.
    destruct (eqb strike_price zero) eqn:Hz; [reflexivity |]. cbn [bind].
    destruct (div_zero_by zero strike_price eq_refl Hz HK) as [Hq Hf].
    rewrite (math_log_not_positive P _ (is_finite_not_nan _ Hf) (zero_not_positive _ Hq)).
    reflexivity. }
  split; [| split; [| exact Hrun]].
  - destruct built as [share_option | e] eqn:Hb.
    + destruct (Binary64.of_int (days_to_expiry now share_option)) as [days | e] eqn:Hd.
      * rewrite (Hrun share_option days eq_refl Hd).
        destruct (eqb strike_price zero); eexists; reflexivity.
      * exists e. subst run. unfold main. fold built. rewrite Hb. cbn [bind].
        unfold ShareOption.calculate_option_value.
        fold (days_to_expiry now share_option). cbn [float_of_int Binary64.binary64].
        rewrite Hd. reflexivity.
    + exists e. subst run. unfold main. fold built. rewrite Hb. reflexivity.
  - intros e Hb. subst run. unfold main. fold built. rewrite Hb. reflexivity.
Qed.

End LastDaysBinary64.

(** ** The theorems on doubles at the examples *)

(** C1, as amended, on doubles: S = 150, K = 100, sigma = 0.25 and 182 days
    on the platform of the examples give the doubles nearest to
    51.54627065920306 and 0.06151310792812659. *)
Lemma calculate_option_value_black_scholes_example :
  ShareOption.calculate_option_value Example.new_year Reference.option
    Reference.strike_price "call" = Ok Reference.call_value
  /\ ShareOption.calculate_option_value Example.new_year Reference.option
    Reference.strike_price "put" = Ok Reference.put_value.
Proof.
  exact (calculate_option_value_black_scholes (F := Binary64.binary64 Reference.libm)
           Example.new_year Reference.option Reference.strike_price
           Reference.days Reference.time_to_expiry Reference.quotient Reference.logarithm
           Reference.variance Reference.root Reference.d1 Reference.discount
           eq_refl eq_refl eq_refl eq_refl eq_refl eq_refl eq_refl eq_refl).
Defined.

(** C1 as stated fails on doubles.  The smallest positive double as share
    price and the strike 2.0 are positive, as are the volatility 0.25 and
    the 182 days to the expiry; their quotient rounds to zero and
    [math.log] raises ValueError, for either kind and whatever the C
    library computes. *)
Lemma black_scholes_positive_inputs_raise :
  PrimFloat.ltb PrimFloat.zero Reference.smallest = true
  /\ PrimFloat.ltb PrimFloat.zero Reference.two = true
  /\ PrimFloat.ltb PrimFloat.zero Reference.volatility = true
  /\ datetime.days (datetime.sub Example.expiry Example.new_year) = 182
  /\ PrimFloat.div Reference.smallest Reference.two = PrimFloat.zero
  /\ forall P : Binary64.platform,
       let share :=
         Share.__init__ (F := Binary64.binary64 P) "ACME"
           Reference.smallest Reference.volatility
           Binary64.Doubles.market_cap Binary64.Doubles.dividend_yield "Technology" in
       let option := ShareOption.mk share Example.expiry in
       ShareOption.calculate_option_value Example.new_year option Reference.two "call"
          = Raise (ValueError msg_math_domain_error)
       /\ ShareOption.calculate_option_value Example.new_year option Reference.two "put"
          = Raise (ValueError msg_math_domain_error).
Proof.
  repeat split; try reflexivity.
Qed.



(** X1 at the example. *)
Lemma value_only_if_binary64_example :
  exists days,
    Binary64.of_int (datetime.days (datetime.sub (ShareOption.expiry_date Reference.option)
                                      Example.new_year)) = Ok days
    /\ PrimFloat.eqb Reference.strike_price PrimFloat.zero = false
    /\ (PrimFloat.is_nan (PrimFloat.div Reference.share_price Reference.strike_price) = true
        \/ PrimFloat.ltb PrimFloat.zero
             (PrimFloat.div Reference.share_price Reference.strike_price) = true)
    /\ PrimFloat.ltb (PrimFloat.div days (Binary64.literal 3650 1)) PrimFloat.zero = false
    /\ PrimFloat.eqb (PrimFloat.mul Reference.volatility
                        (PrimFloat.sqrt (PrimFloat.div days (Binary64.literal 3650 1))))
                     PrimFloat.zero = false
    /\ ("call" = "call" \/ "call" = "put").
Proof.
  apply (value_only_if_binary64 Reference.libm Example.new_year Reference.option
           Reference.strike_price Reference.call_value "call").
  vm_compute. reflexivity.
Defined.

(** X2 at the example of the quotient that rounds to zero. *)
Lemma calculate_option_value_errors_binary64_example :
  PrimFloat.eqb Reference.two PrimFloat.zero = false
  /\ forall P : Binary64.platform,
       ShareOption.calculate_option_value Example.new_year
         (ShareOption.mk
            (Share.__init__ (F := Binary64.binary64 P) "ACME"
               Reference.smallest Reference.volatility
               Binary64.Doubles.market_cap Binary64.Doubles.dividend_yield "Technology")
            Example.expiry)
         Reference.two "swap"
       = Raise (ValueError msg_math_domain_error).
Proof.
  split; [reflexivity |]. intros P.
  refine (proj1 (calculate_option_value_errors_binary64 P Example.new_year _
                   Reference.two Reference.days "swap" _) _ _ _); reflexivity.
Defined.

(** X5 at the example: noon of the day before the expiry. *)
Lemma no_value_in_last_days_example :
  exists e, ShareOption.calculate_option_value Example.eve_noon Reference.option
              Reference.strike_price "call" = Raise e.
Proof.
  apply (no_value_in_last_days Reference.libm
           "ACME" Reference.share_price Reference.volatility
           Binary64.Doubles.market_cap Binary64.Doubles.dividend_yield "Technology"
           "2025-07-02" Reference.option Example.eve_noon);
    reflexivity.
Defined.

(** X12 at the example: the strike 100.0. *)
Lemma main_fallback_price_never_values_example :
  exists e,
    main (F := Binary64.binary64 Reference.libm) Example.new_year "ACME"
      fallback_share_price Binary64.Doubles.market_cap Binary64.Doubles.dividend_yield
      "Technology" "2025-07-02" Reference.strike_price "call" = Raise e.
Proof.
  apply (main_fallback_price_never_values Reference.libm Example.new_year "ACME"
           Binary64.Doubles.market_cap Binary64.Doubles.dividend_yield
           "Technology" "2025-07-02" Reference.strike_price "call").
  reflexivity.
Defined.
